(** * Store-credit pipeline of the Healing Temple community backend

    A shallow embedding of the credit routes ([routes/credits.ts]), the
    OpenAI extraction service ([services/aiService.ts]), the Claude voice
    service ([services/claudeVoiceService.ts]) and the fallback of its
    sibling [OptimalClaudeService], together with the properties the
    specification states about them.

    Modelling conventions.
    - A JavaScript [number] (and a Prisma [Decimal]) is an exact rational
      [Qc]; binary rounding of doubles and the scale of the [Decimal(p,2)]
      columns are outside the model.  [NaN] does not occur: every numeric
      field is either absent ([None]) or a number.
    - Strings are [string]; the whitespace class of [trim] and the case
      folding of [toLowerCase] are the ASCII ones.
    - [new Date()] is a parameter [now : Z] in milliseconds.
    - A Prisma table is a [gmap] from row ids to rows; [uuid()] is [fresh].
      Database calls succeed: a lost connection is outside the model, and
      the unique constraint on [creditSubmissionId] is never put to the
      test, since no reachable database holds two entries for one claim
      (see [ledgerInv]).
    - An [async] function that can throw returns a sum; [try]/[catch] is a
      match on it.  The external language models are inputs of the
      functions that call them. *)

From Stdlib Require Import QArith Qcanon Qround Ascii.
From stdpp Require Import gmap strings list fin_maps numbers sorting.

Open Scope Qc_scope.

(** ** JavaScript numbers and operators *)

Module JS.

(** The decimal literal [n/d], e.g. [dec 12 100] for [0.12]. *)
Definition dec (n : Z) (d : positive) : Qc := Q2Qc (n # d).

Definition ofZ (z : Z) : Qc := Q2Qc (inject_Z z).

Definition Math_max (a b : Qc) : Qc := if bool_decide (a ≤ b) then b else a.
Definition Math_min (a b : Qc) : Qc := if bool_decide (a ≤ b) then a else b.

(** [Math.round x] is [floor (x + 0.5)]. *)
Definition Math_round (x : Qc) : Z := Qfloor (this (x + dec 1 2)).

(** [x || d] on an optional number: [undefined], [null] and [0] are falsy. *)
Definition or_num (x : option Qc) (d : Qc) : Qc :=
  match x with
  | Some v => if bool_decide (v = 0) then d else v
  | None => d
  end.

(** [x || y] where [y] is itself nullable (a [Decimal | null]). *)
Definition or_opt (x : option Qc) (y : option Qc) : option Qc :=
  match x with
  | Some v => if bool_decide (v = 0) then y else Some v
  | None => y
  end.

(** [s || d] on an optional string: [undefined] and [''] are falsy. *)
Definition or_str (x : option string) (d : string) : string :=
  match x with
  | Some EmptyString => d
  | Some s => s
  | None => d
  end.

(** ASCII white space, the part of [\s] below 128. *)
Definition is_ws (c : ascii) : bool :=
  let n := nat_of_ascii c in
  ((9 <=? n)%nat && (n <=? 13)%nat) || (n =? 32)%nat.

Fixpoint trimStart (l : list ascii) : list ascii :=
  match l with
  | c :: l' => if is_ws c then trimStart l' else l
  | [] => []
  end.

Definition trim (s : string) : string :=
  String.string_of_list_ascii
    (rev (trimStart (rev (trimStart (String.list_ascii_of_string s))))).

Definition lower (c : ascii) : ascii :=
  let n := nat_of_ascii c in
  if ((65 <=? n)%nat && (n <=? 90)%nat) then ascii_of_nat (n + 32) else c.

Definition toLowerCase (s : string) : string :=
  String.string_of_list_ascii (map lower (String.list_ascii_of_string s)).

Fixpoint isPrefix (p s : list ascii) : bool :=
  match p, s with
  | [], _ => true
  | a :: p', b :: s' => bool_decide (a = b) && isPrefix p' s'
  | _ :: _, [] => false
  end.

Fixpoint includes_list (s p : list ascii) : bool :=
  isPrefix p s ||
  match s with
  | [] => false
  | _ :: s' => includes_list s' p
  end.

(** [s.includes(p)]. *)
Definition includes (s p : string) : bool :=
  includes_list (String.list_ascii_of_string s) (String.list_ascii_of_string p).

End JS.

Import JS.

(** ** services/aiService.ts *)

Module AIService.

Record AIProcessingContext := {
  userId : string;
  timestamp : option string;
}.

(** The object [JSON.parse] yields from the model's answer; every field
    may be missing. *)
Record AIData := {
  products : option (list string);
  customerDetails : option string;
  timeOfSale : option string;
  ai_assistanceType : option string;
  assistanceDescription : option string;
  ai_confidenceScore : option Qc;
  estimatedSaleValue : option Qc;
  ai_reasoning : option string;
}.

(** What the call to the chat-completion service and the parsing of its
    answer come to. *)
Inductive Completion :=
| ServiceError              (* [openai.chat.completions.create] rejects *)
| NoContent                 (* [choices[0]?.message?.content] is falsy *)
| InvalidJSON               (* [JSON.parse] throws *)
| Parsed (d : AIData).

Inductive ProcessedData :=
| Extracted (products : list string) (customerDetails : string)
            (timeOfSale : option string) (assistanceDescription : string)
            (estimatedSaleValue : Qc)
| FallbackProcessing (rawInput : string).

Record AIResult := {
  processedData : ProcessedData;
  assistanceType : string;
  confidenceScore : Qc;
  estimatedCredit : Qc;
  reasoning : string;
}.

(** [ASSISTANCE_TYPES[t]?.rate] *)
Definition ASSISTANCE_TYPES_rate (t : string) : option Qc :=
  if String.eqb t "recommendation" then Some (dec 3 100)
  else if String.eqb t "assistance" then Some (dec 7 100)
  else if String.eqb t "consultation" then Some (dec 12 100)
  else if String.eqb t "problem_solving" then Some (dec 18 100)
  else None.

Definition defaultCredits (t : string) : option Qc :=
  if String.eqb t "recommendation" then Some (ofZ 2)
  else if String.eqb t "assistance" then Some (ofZ 5)
  else if String.eqb t "consultation" then Some (ofZ 10)
  else if String.eqb t "problem_solving" then Some (ofZ 15)
  else None.

Inductive Thrown := Error (message : string).

(** The body of the [try] block. *)
Definition processWithAI_try (rawInput : string) (context : AIProcessingContext)
    (completion : Completion) : Thrown + AIResult :=
  match completion with
  | ServiceError => inl (Error "AI service unavailable")
  | NoContent => inl (Error "No response from AI service")
  | InvalidJSON => inl (Error "Invalid AI response format")
  | Parsed aiData =>
      let assistanceType := or_str (ai_assistanceType aiData) "recommendation" in
      let confidenceScore :=
        Math_max (dec 1 10) (Math_min 1 (or_num (ai_confidenceScore aiData) (dec 1 2))) in
      let estimatedSaleValue := Math_max 0 (or_num (estimatedSaleValue aiData) 0) in
      let baseRate := or_num (ASSISTANCE_TYPES_rate assistanceType) (dec 3 100) in
      let estimatedCredit :=
        if bool_decide (0 < estimatedSaleValue)
        then estimatedSaleValue * baseRate
        else or_num (defaultCredits assistanceType) (ofZ 2) in
      let estimatedCredit := estimatedCredit * confidenceScore in
      let estimatedCredit := Math_min estimatedCredit (ofZ 50) in
      let estimatedCredit := ofZ (Math_round (estimatedCredit * ofZ 100)) / ofZ 100 in
      inr {| processedData :=
               Extracted (default [] (products aiData))
                         (or_str (customerDetails aiData) "")
                         (match timeOfSale aiData with
                          | Some EmptyString | None => timestamp context
                          | Some t => Some t
                          end)
                         (or_str (assistanceDescription aiData) rawInput)
                         estimatedSaleValue;
             assistanceType := assistanceType;
             confidenceScore := confidenceScore;
             estimatedCredit := estimatedCredit;
             reasoning := or_str (ai_reasoning aiData) "AI analysis completed" |}
  end.

(** The result of the [catch] block. *)
Definition fallback (rawInput : string) : AIResult :=
  {| processedData := FallbackProcessing rawInput;
     assistanceType := "recommendation";
     confidenceScore := dec 3 10;
     estimatedCredit := ofZ 1;
     reasoning := "Fallback processing due to AI service error" |}.

Definition processWithAI (rawInput : string) (context : AIProcessingContext)
    (completion : Completion) : AIResult :=
  match processWithAI_try rawInput context completion with
  | inr result => result
  | inl _ => fallback rawInput
  end.

(** [validateSaleTimestamp]: [saleTime] is what [new Date(timestamp).getTime()]
    yields, [None] for an invalid date (every comparison with [NaN] is
    false). *)
Definition maxAge : Z := 7 * 24 * 60 * 60 * 1000.

Definition validateSaleTimestamp (saleTime : option Z) (tolerance : Z) (now : Z) : bool :=
  match saleTime with
  | Some saleTime =>
      let diff := Z.abs (now - saleTime) in
      bool_decide (diff ≤ maxAge)%Z && bool_decide (saleTime ≤ now)%Z
  | None => false
  end.

End AIService.

(** ** services/claudeVoiceService.ts *)

Module ClaudeVoiceService.

Record VoiceProcessingContext := {
  userId : string;
  conversationHistory : option (list string);
  isFollowUp : option bool;
}.

(** What [anthropic.messages.create] comes to. *)
Inductive ClaudeReply :=
| CallFails                 (* the promise rejects: network, timeout, 5xx *)
| EmptyContent              (* [message.content[0]] is undefined *)
| TextBlock (text : string)
| OtherBlock.

(** [processedData]; the [extractedDetails] bundle (products, time and
    customer hints found by regular expressions) is left out. *)
Inductive ProcessedData :=
| Analysed (originalTranscript claudeAnalysis : string)
           (conversationContext : list string)
| ProcessingFailed (originalText : string).

Record ClaudeVoiceResult := {
  processedData : ProcessedData;
  assistanceType : string;
  confidenceScore : Qc;
  estimatedCredit : Qc;
  needsFollowUp : bool;
  followUpQuestions : option (list string);
  conversationalResponse : string;
  shouldSpeak : bool;
}.

Record Analysis := {
  a_assistanceType : string;
  confidence : Qc;
  a_estimatedCredit : Qc;
  needsMoreInfo : bool;
  a_followUpQuestions : list string;
}.

(** The matches of [/[^.!]*\?[^.!]*/g]: the maximal runs free of ['.'] and
    ['!'] that contain a ['?']. *)
Fixpoint runs (cur : list ascii) (l : list ascii) : list (list ascii) :=
  match l with
  | [] => [rev cur]
  | c :: l' =>
      if bool_decide (c = "."%char) || bool_decide (c = "!"%char)
      then rev cur :: runs [] l'
      else runs (c :: cur) l'
  end.

Definition questionMatches (s : string) : list string :=
  String.string_of_list_ascii <$>
    filter (λ r, "?"%char ∈ r) (runs [] (String.list_ascii_of_string s)).

Definition extractStructuredData (claudeResponse originalText : string) : Analysis :=
  let lowerResponse := toLowerCase claudeResponse in
  let '(assistanceType, estimatedCredit, confidence) :=
    if includes lowerResponse "consultation" || includes lowerResponse "explained"
       || includes lowerResponse "educated"
    then ("consultation", ofZ 8, dec 8 10)
    else if includes lowerResponse "problem" || includes lowerResponse "solved"
            || includes lowerResponse "custom"
    then ("problem_solving", ofZ 12, dec 9 10)
    else if includes lowerResponse "helped" || includes lowerResponse "assisted"
            || includes lowerResponse "guided"
    then ("assistance", ofZ 5, dec 75 100)
    else ("recommendation", ofZ 2, dec 6 10) in
  let needsMoreInfo :=
    includes claudeResponse "?" || includes lowerResponse "tell me more"
    || includes lowerResponse "what time" || includes lowerResponse "which product" in
  {| a_assistanceType := assistanceType;
     confidence := confidence;
     a_estimatedCredit := estimatedCredit;
     needsMoreInfo := needsMoreInfo;
     a_followUpQuestions :=
       if needsMoreInfo then trim <$> questionMatches claudeResponse else [] |}.

Fixpoint collapse (inSpace : bool) (l : list ascii) : list ascii :=
  match l with
  | [] => []
  | c :: l' =>
      if is_ws c
      then (if inSpace then collapse true l' else " "%char :: collapse true l')
      else c :: collapse false l'
  end.

(** [text.replace(/\n/g, ' ').replace(/\s+/g, ' ').trim()] *)
Definition makeConversational (text : string) : string :=
  trim (String.string_of_list_ascii (collapse false (String.list_ascii_of_string text))).

Definition processVoiceInput_try (transcriptText : string)
    (context : VoiceProcessingContext) (reply : ClaudeReply)
    : AIService.Thrown + ClaudeVoiceResult :=
  let conversationHistory := default [] (conversationHistory context) in
  match reply with
  | CallFails => inl (AIService.Error "Anthropic API error")
  | EmptyContent => inl (AIService.Error "Cannot read properties of undefined")
  | TextBlock _ | OtherBlock =>
      let responseText :=
        match reply with
        | TextBlock text => text
        | _ => "I had trouble processing that. Could you try again?"
        end in
      let analysis := extractStructuredData responseText transcriptText in
      inr {| processedData :=
               Analysed transcriptText responseText
                        (conversationHistory ++ [transcriptText; responseText]);
             assistanceType := a_assistanceType analysis;
             confidenceScore := confidence analysis;
             estimatedCredit := a_estimatedCredit analysis;
             needsFollowUp := needsMoreInfo analysis;
             followUpQuestions := Some (a_followUpQuestions analysis);
             conversationalResponse := makeConversational responseText;
             shouldSpeak := true |}
  end.

(** The object the [catch] block returns; it has no [followUpQuestions]. *)
Definition fallback (transcriptText : string) : ClaudeVoiceResult :=
  {| processedData := ProcessingFailed transcriptText;
     assistanceType := "recommendation";
     confidenceScore := dec 3 10;
     estimatedCredit := ofZ 1;
     needsFollowUp := false;
     followUpQuestions := None;
     conversationalResponse :=
       "I'm sorry, I had trouble understanding that. Could you tell me again about how you helped with a sale?";
     shouldSpeak := true |}.

Definition processVoiceInput (transcriptText : string)
    (context : VoiceProcessingContext) (reply : ClaudeReply) : ClaudeVoiceResult :=
  match processVoiceInput_try transcriptText context reply with
  | inr result => result
  | inl _ => fallback transcriptText
  end.

End ClaudeVoiceService.

(** ** [OptimalClaudeService]: the fallback of the sibling voice service *)

Module OptimalClaudeService.

Definition getFallbackResponse (text : string) : ClaudeVoiceService.ClaudeVoiceResult :=
  {| ClaudeVoiceService.processedData := ClaudeVoiceService.ProcessingFailed text;
     ClaudeVoiceService.assistanceType := "recommendation";
     ClaudeVoiceService.confidenceScore := dec 4 10;
     ClaudeVoiceService.estimatedCredit := ofZ 1;
     ClaudeVoiceService.needsFollowUp := true;
     ClaudeVoiceService.followUpQuestions :=
       Some ["Could you tell me more about how you helped?"];
     ClaudeVoiceService.conversationalResponse :=
       "I didn't quite catch that. Could you tell me more about how you helped with a sale?";
     ClaudeVoiceService.shouldSpeak := true |}.

(** [history.slice(-n)] *)
Definition lastN {A} (n : nat) (l : list A) : list A := drop (length l - n) l.

(** The double quote and the line feed of the template strings. *)
Definition quote : string := String (ascii_of_nat 34) EmptyString.
Definition newline : string := String (ascii_of_nat 10) EmptyString.

Definition buildUserMessage (text : string) (history : list string) (isFollowUp : bool)
    : string :=
  if isFollowUp
  then "Follow-up: " +:+ quote +:+ text +:+ quote
  else if bool_decide (0 < length history)%nat
  then "Context: " +:+ String.concat " | " (lastN 4 history)
       +:+ newline +:+ "New input: " +:+ quote +:+ text +:+ quote
  else "Credit claim: " +:+ quote +:+ text +:+ quote.

Definition isDigit (c : ascii) : bool :=
  let n := nat_of_ascii c in (48 <=? n)%nat && (n <=? 57)%nat.

(** [/\d+|time|customer|product|help/i.test(originalText)] *)
Definition hasSpecifics (originalText : string) : bool :=
  let lower := toLowerCase originalText in
  existsb isDigit (String.list_ascii_of_string originalText)
  || includes lower "time" || includes lower "customer"
  || includes lower "product" || includes lower "help".

Fixpoint beforeFirst (c : ascii) (l : list ascii) : list ascii :=
  match l with
  | [] => []
  | x :: l' => if bool_decide (x = c) then [] else x :: beforeFirst c l'
  end.

(** The scalar part of [extractStructuredData]; the [details] bundle is
    left out. *)
Definition extractStructuredData (claudeResponse originalText : string)
    : ClaudeVoiceService.Analysis :=
  let lower := toLowerCase claudeResponse in
  let '(assistanceType, baseCredit) :=
    if includes lower "consultation" || includes lower "explained" || includes lower "educated"
    then ("consultation", ofZ 8)
    else if includes lower "problem" || includes lower "solved" || includes lower "custom"
    then ("problem_solving", ofZ 12)
    else if includes lower "helped" || includes lower "assisted" || includes lower "guided"
    then ("assistance", ofZ 5)
    else ("recommendation", ofZ 2) in
  let confidence := if hasSpecifics originalText then dec 8 10 else dec 6 10 in
  let needsMoreInfo := includes claudeResponse "?" && includes lower "tell me" in
  {| ClaudeVoiceService.a_assistanceType := assistanceType;
     ClaudeVoiceService.confidence := confidence;
     ClaudeVoiceService.a_estimatedCredit :=
       ofZ (Math_round (baseCredit * confidence * ofZ 100)) / ofZ 100;
     ClaudeVoiceService.needsMoreInfo := needsMoreInfo;
     ClaudeVoiceService.a_followUpQuestions :=
       if needsMoreInfo
       then [String.string_of_list_ascii
               (beforeFirst "?"%char (String.list_ascii_of_string claudeResponse)) +:+ "?"]
       else [] |}.

End OptimalClaudeService.

(** ** prisma/schema.prisma: the two tables of the credit pipeline *)

Inductive CreditSubmissionStatus := PENDING | APPROVED | REJECTED | UNDER_REVIEW.
Inductive UserRole := MEMBER | STAFF | ADMIN.

Global Instance CreditSubmissionStatus_eq_dec : EqDecision CreditSubmissionStatus.
Proof. solve_decision. Defined.
Global Instance UserRole_eq_dec : EqDecision UserRole.
Proof. solve_decision. Defined.

(** The [Json?] column [processed_data]: what [/submit] stores comes from
    [processWithAI]; what [/submit-processed] stores is the client's object,
    of which only [originalTranscript] is read. *)
Inductive Json :=
| FromAI (d : AIService.ProcessedData)
| FromClient (originalTranscript : option string).

Module CreditSubmission.
Record t := {
  userId : string;
  saleId : option string;
  rawInput : string;
  processedData : option Json;
  assistanceType : option string;
  confidenceScore : option Qc;
  claimedAmount : option Qc;
  approvedAmount : option Qc;
  status : CreditSubmissionStatus;
  reviewedBy : option string;
  reviewNotes : option string;
  submittedAt : Z;
  reviewedAt : option Z;
}.
End CreditSubmission.

Module StoreCredit.
Record t := {
  userId : string;
  creditSubmissionId : option nat;
  amount : Qc;
  creditType : string;
  description : option string;
  expiresAt : option Z;
  isRedeemed : bool;
  redeemedAt : option Z;
  createdAt : Z;
}.
End StoreCredit.

Record Db := {
  creditSubmission : gmap nat CreditSubmission.t;
  storeCredit : gmap nat StoreCredit.t;
}.

Definition emptyDb : Db := {| creditSubmission := ∅; storeCredit := ∅ |}.

(** [prisma.creditSubmission.create]: the row gets a fresh id. *)
Definition creditSubmission_create (db : Db) (row : CreditSubmission.t) : nat * Db :=
  let id := fresh (dom (creditSubmission db)) in
  (id, {| creditSubmission := <[id := row]> (creditSubmission db);
          storeCredit := storeCredit db |}).

(** [prisma.creditSubmission.update({ where: { id }, data })] on an existing row. *)
Definition creditSubmission_update (db : Db) (id : nat) (row : CreditSubmission.t) : Db :=
  {| creditSubmission := <[id := row]> (creditSubmission db);
     storeCredit := storeCredit db |}.

(** [prisma.storeCredit.create] *)
Definition storeCredit_create (db : Db) (row : StoreCredit.t) : Db :=
  {| creditSubmission := creditSubmission db;
     storeCredit := <[fresh (dom (storeCredit db)) := row]> (storeCredit db) |}.

(** [365 * 24 * 60 * 60 * 1000] *)
Definition oneYear : Z := 365 * 24 * 60 * 60 * 1000.

(** The ledger entries of one claim. *)
Definition creditsOf (db : Db) (id : nat) : gmap nat StoreCredit.t :=
  filter (λ kc, StoreCredit.creditSubmissionId kc.2 = Some id) (storeCredit db).

(** ** routes/credits.ts *)

Module Credits.

(** [req.user], as the [authenticate] middleware leaves it. *)
Record User := { id : string; role : UserRole }.

Inductive Response (A : Type) :=
| Res (statusCode : nat) (body : A)
| AppError (message : string) (statusCode : nat)
| PrismaError (message : string).
Arguments Res {A} statusCode body.
Arguments AppError {A} message statusCode.
Arguments PrismaError {A} message.

(** Modelled from the spec: the body of the [requireRole] middleware, which
    the routes import from [middleware/auth.ts].  "Reviewer must hold an
    elevated role (staff/admin)"; anyone else is turned away before the
    handler runs. *)
Definition requireRole (roles : list UserRole) (user : User) : bool :=
  bool_decide (role user ∈ roles).

(** [isLength({ min, max })] *)
Definition isLength (min max : nat) (s : string) : bool :=
  bool_decide (min ≤ String.length s)%nat && bool_decide (String.length s ≤ max)%nat.

(** [.optional()] in front of a validator. *)
Definition optional {A} (v : A → bool) (x : option A) : bool :=
  match x with Some a => v a | None => true end.

(** [isFloat({ min, max })] on a field that must be present. *)
Definition isFloat (min : Qc) (max : option Qc) (x : option Qc) : bool :=
  match x with
  | Some v => bool_decide (min ≤ v)
              && match max with Some m => bool_decide (v ≤ m) | None => true end
  | None => false
  end.

Record SubmissionSummary := {
  s_id : nat;
  s_assistanceType : option string;
  s_claimedAmount : option Qc;
  s_status : CreditSubmissionStatus;
  s_confidenceScore : option Qc;
  s_submittedAt : Z;
}.

Record SubmitReply := { submission : SubmissionSummary; autoApproved : bool }.

Definition summary (id : nat) (submission : CreditSubmission.t) : SubmitReply :=
  {| submission :=
       {| s_id := id;
          s_assistanceType := CreditSubmission.assistanceType submission;
          s_claimedAmount := CreditSubmission.claimedAmount submission;
          s_status := CreditSubmission.status submission;
          s_confidenceScore := CreditSubmission.confidenceScore submission;
          s_submittedAt := CreditSubmission.submittedAt submission |};
     autoApproved := bool_decide (CreditSubmission.status submission = APPROVED) |}.

Section Routes.

(** The ISO 8601 check of the validator library. *)
Variable isISO8601 : string → bool.

(** *** POST /submit *)

Record SubmitBody := { rawInput : string; saleTimestamp : option string }.

Definition submit (db : Db) (now : Z) (user : User) (body : SubmitBody)
    (completion : AIService.Completion) : Response SubmitReply * Db :=
  let rawInput := trim (rawInput body) in
  if negb (isLength 10 1000 rawInput && optional isISO8601 (saleTimestamp body))
  then (AppError "Validation failed" 400, db)
  else
    let userId := id user in
    let aiResult :=
      AIService.processWithAI rawInput
        {| AIService.userId := userId; AIService.timestamp := saleTimestamp body |}
        completion in
    let submission :=
      {| CreditSubmission.userId := userId;
         CreditSubmission.saleId := None;
         CreditSubmission.rawInput := rawInput;
         CreditSubmission.processedData := Some (FromAI (AIService.processedData aiResult));
         CreditSubmission.assistanceType := Some (AIService.assistanceType aiResult);
         CreditSubmission.confidenceScore := Some (AIService.confidenceScore aiResult);
         CreditSubmission.claimedAmount := Some (AIService.estimatedCredit aiResult);
         CreditSubmission.approvedAmount := None;
         CreditSubmission.status :=
           if bool_decide (dec 8 10 ≤ AIService.confidenceScore aiResult)
           then APPROVED else PENDING;
         CreditSubmission.reviewedBy := None;
         CreditSubmission.reviewNotes := None;
         CreditSubmission.submittedAt := now;
         CreditSubmission.reviewedAt := None |} in
    let '(sid, db) := creditSubmission_create db submission in
    if bool_decide (CreditSubmission.status submission = APPROVED)
    then
      match CreditSubmission.claimedAmount submission with
      | None => (AppError "Failed to process credit submission" 500, db)
      | Some amount =>
          (Res 201 (summary sid submission),
           storeCredit_create db
             {| StoreCredit.userId := userId;
                StoreCredit.creditSubmissionId := Some sid;
                StoreCredit.amount := amount;
                StoreCredit.creditType := "earned";
                StoreCredit.description :=
                  Some ("Credit for " +:+
                        default "null" (CreditSubmission.assistanceType submission));
                StoreCredit.expiresAt := Some (now + oneYear)%Z;
                StoreCredit.isRedeemed := false;
                StoreCredit.redeemedAt := None;
                StoreCredit.createdAt := now |})
      end
    else (Res 201 (summary sid submission), db).

(** *** POST /submit-processed *)

Record ProcessedBody := {
  pb_processedData : option Json;       (* [None]: absent or not an object *)
  pb_assistanceType : string;
  pb_estimatedCredit : option Qc;
  pb_confidence : option Qc;
}.

Definition isAssistanceType (s : string) : bool :=
  bool_decide (s ∈ ["recommendation"; "assistance"; "consultation"; "problem_solving"]).

(** [isObject()] on a field that must be present. *)
Definition isObject (x : option Json) : bool :=
  match x with Some _ => true | None => false end.

Definition originalTranscript (j : Json) : option string :=
  match j with FromClient t => t | FromAI _ => None end.

Definition submit_processed (db : Db) (now : Z) (user : User) (body : ProcessedBody)
    : Response SubmitReply * Db :=
  if negb (isObject (pb_processedData body)
           && isAssistanceType (pb_assistanceType body)
           && isFloat 0 None (pb_estimatedCredit body)
           && isFloat 0 (Some 1) (pb_confidence body))
  then (AppError "Validation failed" 400, db)
  else
    match pb_processedData body, pb_estimatedCredit body, pb_confidence body with
    | Some processedData, Some estimatedCredit, Some confidence =>
        let userId := id user in
        let submission :=
          {| CreditSubmission.userId := userId;
             CreditSubmission.saleId := None;
             CreditSubmission.rawInput :=
               or_str (originalTranscript processedData) "Voice submission";
             CreditSubmission.processedData := Some processedData;
             CreditSubmission.assistanceType := Some (pb_assistanceType body);
             CreditSubmission.confidenceScore := Some confidence;
             CreditSubmission.claimedAmount := Some estimatedCredit;
             CreditSubmission.approvedAmount := None;
             CreditSubmission.status :=
               if bool_decide (dec 8 10 ≤ confidence) then APPROVED else PENDING;
             CreditSubmission.reviewedBy := None;
             CreditSubmission.reviewNotes := None;
             CreditSubmission.submittedAt := now;
             CreditSubmission.reviewedAt := None |} in
        let '(sid, db) := creditSubmission_create db submission in
        if bool_decide (CreditSubmission.status submission = APPROVED)
        then
          match CreditSubmission.claimedAmount submission with
          | None => (AppError "Failed to process voice credit submission" 500, db)
          | Some amount =>
              (Res 201 (summary sid submission),
               storeCredit_create db
                 {| StoreCredit.userId := userId;
                    StoreCredit.creditSubmissionId := Some sid;
                    StoreCredit.amount := amount;
                    StoreCredit.creditType := "earned";
                    StoreCredit.description :=
                      Some ("Voice credit for " +:+
                            default "null" (CreditSubmission.assistanceType submission));
                    StoreCredit.expiresAt := Some (now + oneYear)%Z;
                    StoreCredit.isRedeemed := false;
                    StoreCredit.redeemedAt := None;
                    StoreCredit.createdAt := now |})
          end
        else (Res 201 (summary sid submission), db)
    | _, _, _ => (AppError "Validation failed" 400, db)
    end.

End Routes.

(** *** GET /balance *)



(** [orderBy: { createdAt: 'desc' }] *)
Definition newerFirst (a b : nat * StoreCredit.t) : Prop :=
  (StoreCredit.createdAt b.2 ≤ StoreCredit.createdAt a.2)%Z.

Global Instance newerFirst_dec a b : Decision (newerFirst a b).
Proof. unfold newerFirst. apply _. Defined.



(** *** GET /admin/pending *)

Record Page (A : Type) := {
  rows : list A;
  page : nat;
  limit : nat;
  total : nat;
  pages : nat;
}.
Arguments rows {A}.
Arguments page {A}.
Arguments limit {A}.
Arguments total {A}.
Arguments pages {A}.

Definition isPending (kc : nat * CreditSubmission.t) : bool :=
  bool_decide (CreditSubmission.status kc.2 ∈ [PENDING; UNDER_REVIEW]).

(** [orderBy: { submittedAt: 'asc' }] *)
Definition olderFirst (a b : nat * CreditSubmission.t) : Prop :=
  (CreditSubmission.submittedAt a.2 ≤ CreditSubmission.submittedAt b.2)%Z.

Global Instance olderFirst_dec a b : Decision (olderFirst a b).
Proof. unfold olderFirst. apply _. Defined.

(** The review queue, before paging. *)
Definition pendingQueue (db : Db) : list (nat * CreditSubmission.t) :=
  merge_sort olderFirst
    (filter (λ kc, isPending kc = true) (map_to_list (creditSubmission db))).

(** [isInt({ min, max })] in front of [parseInt(...) || d]. *)
Definition isInt (min : nat) (max : option nat) (n : nat) : bool :=
  bool_decide (min ≤ n)%nat
  && match max with Some m => bool_decide (n ≤ m)%nat | None => true end.

Definition admin_pending (db : Db) (user : User) (qpage qlimit : option nat)
    : Response (Page (nat * CreditSubmission.t)) :=
  if negb (requireRole [ADMIN; STAFF] user)
  then AppError "Insufficient permissions" 403
  else if negb (optional (isInt 1 None) qpage && optional (isInt 1 (Some 50%nat)) qlimit)
  then AppError "Validation failed" 400
  else
    let page := default 1%nat qpage in
    let limit := default 20%nat qlimit in
    let queue := pendingQueue db in
    let total := length queue in
    Res 200 {| rows := take limit (drop ((page - 1) * limit) queue);
               page := page;
               limit := limit;
               total := total;
               pages := Nat.div (total + limit - 1) limit |}.

(** *** PATCH /admin/review/:id *)

Record ReviewBody := {
  rb_status : string;
  rb_approvedAmount : option Qc;
  rb_reviewNotes : option string;
}.

Definition parseStatus (s : string) : option CreditSubmissionStatus :=
  if String.eqb s "APPROVED" then Some APPROVED
  else if String.eqb s "REJECTED" then Some REJECTED
  else None.

Record ReviewReply := { updatedSubmission : CreditSubmission.t; message : string }.

Definition review (db : Db) (now : Z) (user : User) (id_ : nat) (body : ReviewBody)
    : Response ReviewReply * Db :=
  if negb (requireRole [ADMIN; STAFF] user)
  then (AppError "Insufficient permissions" 403, db)
  else
    let reviewNotes := trim <$> rb_reviewNotes body in
    match parseStatus (rb_status body) with
    | None => (AppError "Validation failed" 400, db)
    | Some status =>
        if negb (optional (λ a, bool_decide (0 ≤ a)) (rb_approvedAmount body)
                 && optional (isLength 0 500) reviewNotes)
        then (AppError "Validation failed" 400, db)
        else
          let approvedAmount := rb_approvedAmount body in
          let reviewerId := id user in
          match creditSubmission db !! id_ with
          | None => (AppError "Submission not found" 404, db)
          | Some submission =>
              if bool_decide (CreditSubmission.status submission ≠ PENDING)
                 && bool_decide (CreditSubmission.status submission ≠ UNDER_REVIEW)
              then (AppError "Submission already reviewed" 400, db)
              else
                let updatedSubmission :=
                  {| CreditSubmission.userId := CreditSubmission.userId submission;
                     CreditSubmission.saleId := CreditSubmission.saleId submission;
                     CreditSubmission.rawInput := CreditSubmission.rawInput submission;
                     CreditSubmission.processedData := CreditSubmission.processedData submission;
                     CreditSubmission.assistanceType := CreditSubmission.assistanceType submission;
                     CreditSubmission.confidenceScore := CreditSubmission.confidenceScore submission;
                     CreditSubmission.claimedAmount := CreditSubmission.claimedAmount submission;
                     CreditSubmission.approvedAmount :=
                       or_opt approvedAmount (CreditSubmission.claimedAmount submission);
                     CreditSubmission.status := status;
                     CreditSubmission.reviewedBy := Some reviewerId;
                     CreditSubmission.reviewNotes :=
                       match reviewNotes with
                       | Some n => Some n
                       | None => CreditSubmission.reviewNotes submission
                       end;
                     CreditSubmission.submittedAt := CreditSubmission.submittedAt submission;
                     CreditSubmission.reviewedAt := Some now |} in
                let db := creditSubmission_update db id_ updatedSubmission in
                let reply :=
                  {| updatedSubmission := updatedSubmission;
                     message := "Submission " +:+ toLowerCase (rb_status body) +:+ " successfully" |} in
                if bool_decide (status = APPROVED)
                then
                  match or_opt approvedAmount (CreditSubmission.claimedAmount submission) with
                  | None => (PrismaError "Argument amount must not be null", db)
                  | Some amount =>
                      (Res 200 reply,
                       storeCredit_create db
                         {| StoreCredit.userId := CreditSubmission.userId submission;
                            StoreCredit.creditSubmissionId := Some id_;
                            StoreCredit.amount := amount;
                            StoreCredit.creditType := "earned";
                            StoreCredit.description :=
                              Some ("Credit for " +:+
                                    default "null" (CreditSubmission.assistanceType submission)
                                    +:+ " (reviewed)");
                            StoreCredit.expiresAt := Some (now + oneYear)%Z;
                            StoreCredit.isRedeemed := false;
                            StoreCredit.redeemedAt := None;
                            StoreCredit.createdAt := now |})
                  end
                else (Res 200 reply, db)
          end
    end.

(** *** POST /voice-process *)

Record VoiceBody := {
  transcript : string;
  context : ClaudeVoiceService.VoiceProcessingContext;
}.

Definition voice_process (user : User) (body : VoiceBody)
    (reply : ClaudeVoiceService.ClaudeReply)
    : Response ClaudeVoiceService.ClaudeVoiceResult :=
  let transcript := trim (transcript body) in
  if negb (isLength 5 1000 transcript
           && negb (String.eqb (ClaudeVoiceService.userId (context body)) ""))
  then AppError "Validation failed" 400
  else if negb (String.eqb (ClaudeVoiceService.userId (context body)) (id user))
  then AppError "User context mismatch" 403
  else
    Res 200 (ClaudeVoiceService.processVoiceInput transcript (context body) reply).

(** *** GET /submissions *)

(** The [select] of the listing. *)
Record OwnSubmission := {
  o_id : nat;
  o_assistanceType : option string;
  o_claimedAmount : option Qc;
  o_approvedAmount : option Qc;
  o_status : CreditSubmissionStatus;
  o_confidenceScore : option Qc;
  o_submittedAt : Z;
  o_reviewedAt : option Z;
  o_reviewNotes : option string;
}.

Definition selectOwn (kc : nat * CreditSubmission.t) : OwnSubmission :=
  {| o_id := kc.1;
     o_assistanceType := CreditSubmission.assistanceType kc.2;
     o_claimedAmount := CreditSubmission.claimedAmount kc.2;
     o_approvedAmount := CreditSubmission.approvedAmount kc.2;
     o_status := CreditSubmission.status kc.2;
     o_confidenceScore := CreditSubmission.confidenceScore kc.2;
     o_submittedAt := CreditSubmission.submittedAt kc.2;
     o_reviewedAt := CreditSubmission.reviewedAt kc.2;
     o_reviewNotes := CreditSubmission.reviewNotes kc.2 |}.

(** [isIn(['PENDING', 'APPROVED', 'REJECTED', 'UNDER_REVIEW'])] *)
Definition parseStatusFilter (s : string) : option CreditSubmissionStatus :=
  if String.eqb s "PENDING" then Some PENDING
  else if String.eqb s "APPROVED" then Some APPROVED
  else if String.eqb s "REJECTED" then Some REJECTED
  else if String.eqb s "UNDER_REVIEW" then Some UNDER_REVIEW
  else None.

(** [where = { userId }], with [where.status = status] when a status is given. *)
Definition ownWhere (userId : string) (status : option CreditSubmissionStatus)
    (kc : nat * CreditSubmission.t) : bool :=
  bool_decide (CreditSubmission.userId kc.2 = userId)
  && match status with
     | Some st => bool_decide (CreditSubmission.status kc.2 = st)
     | None => true
     end.

(** [orderBy: { submittedAt: 'desc' }] *)
Definition latestFirst (a b : nat * CreditSubmission.t) : Prop :=
  (CreditSubmission.submittedAt b.2 ≤ CreditSubmission.submittedAt a.2)%Z.

Global Instance latestFirst_dec a b : Decision (latestFirst a b).
Proof. unfold latestFirst. apply _. Defined.

Definition ownClaims (db : Db) (userId : string) (status : option CreditSubmissionStatus)
    : list (nat * CreditSubmission.t) :=
  merge_sort latestFirst
    (filter (λ kc, ownWhere userId status kc = true) (map_to_list (creditSubmission db))).

Definition submissions (db : Db) (user : User) (qpage qlimit : option nat)
    (qstatus : option string) : Response (Page OwnSubmission) :=
  if negb (optional (isInt 1 None) qpage && optional (isInt 1 (Some 50%nat)) qlimit
           && optional (λ s, bool_decide (is_Some (parseStatusFilter s))) qstatus)
  then AppError "Validation failed" 400
  else
    let page := default 1%nat qpage in
    let limit := default 20%nat qlimit in
    let status := qstatus ≫= parseStatusFilter in
    let found := ownClaims db (id user) status in
    let total := length found in
    Res 200 {| rows := selectOwn <$> take limit (drop ((page - 1) * limit) found);
               page := page;
               limit := limit;
               total := total;
               pages := Nat.div (total + limit - 1) limit |}.

End Credits.

(** ** Specification-side definitions *)

(** The calculator as section 4.3 of the specification words it: a rate per
    category, modifiers multiplied in, confidence scaling, the cap applied
    last, one rounding to cents at the end.  It exists to be compared with
    [AIService.processWithAI]. *)
Module SpecCalculator.




End SpecCalculator.

(** One request served by a route that writes to the database. *)
Inductive step (isISO8601 : string → bool) (db : Db) : Db → Prop :=
| step_submit now user body completion :
    step isISO8601 db (Credits.submit isISO8601 db now user body completion).2
| step_submit_processed now user body :
    step isISO8601 db (Credits.submit_processed db now user body).2
| step_review now user id body :
    step isISO8601 db (Credits.review db now user id body).2.

(** The databases the routes can build, starting from empty tables. *)
Definition reachable (isISO8601 : string → bool) (db : Db) : Prop :=
  rtc (step isISO8601) emptyDb db.

Definition terminal (s : CreditSubmissionStatus) : Prop := s = APPROVED ∨ s = REJECTED.

(** Ledger discipline: a claim that is unknown or still awaiting review has no
    ledger entry, and no claim has more than one. *)
Definition ledgerInv (db : Db) : Prop :=
  ∀ id : nat,
    match creditSubmission db !! id with
    | Some submission =>
        if bool_decide (terminal (CreditSubmission.status submission))
        then (size (creditsOf db id) ≤ 1)%nat
        else creditsOf db id = ∅
    | None => creditsOf db id = ∅
    end.

(** Every stored confidence is a number of the unit interval. *)
Definition confidenceInv (db : Db) : Prop :=
  ∀ (id : nat) submission,
    creditSubmission db !! id = Some submission →
    ∃ c, CreditSubmission.confidenceScore submission = Some c ∧ 0 ≤ c ∧ c ≤ 1.

(** The balance as the specification words it: the sum, over the whole
    ledger, of the amounts of the member's entries that are neither redeemed
    nor expired. *)
Definition eligible (userId : string) (now : Z) (c : StoreCredit.t) : Prop :=
  StoreCredit.userId c = userId
  ∧ StoreCredit.isRedeemed c = false
  ∧ match StoreCredit.expiresAt c with
    | None => True
    | Some e => (now < e)%Z
    end.

Global Instance eligible_dec userId now c : Decision (eligible userId now c).
Proof. unfold eligible. destruct (StoreCredit.expiresAt c); apply _. Defined.


(** *** What the submission routes write, and how a reply is read *)

(** The row both submission routes create, as a function of what differs
    between them. *)
Definition newClaim (userId rawInput : string) (processedData : Json)
    (assistanceType : string) (confidence amount : Qc) (now : Z) : CreditSubmission.t :=
  {| CreditSubmission.userId := userId;
     CreditSubmission.saleId := None;
     CreditSubmission.rawInput := rawInput;
     CreditSubmission.processedData := Some processedData;
     CreditSubmission.assistanceType := Some assistanceType;
     CreditSubmission.confidenceScore := Some confidence;
     CreditSubmission.claimedAmount := Some amount;
     CreditSubmission.approvedAmount := None;
     CreditSubmission.status := if bool_decide (dec 8 10 ≤ confidence) then APPROVED else PENDING;
     CreditSubmission.reviewedBy := None;
     CreditSubmission.reviewNotes := None;
     CreditSubmission.submittedAt := now;
     CreditSubmission.reviewedAt := None |}.

(** The ledger entry every approval writes. *)
Definition earned (userId : string) (sid : nat) (amount : Qc) (description : string)
    (now : Z) : StoreCredit.t :=
  {| StoreCredit.userId := userId;
     StoreCredit.creditSubmissionId := Some sid;
     StoreCredit.amount := amount;
     StoreCredit.creditType := "earned";
     StoreCredit.description := Some description;
     StoreCredit.expiresAt := Some (now + oneYear)%Z;
     StoreCredit.isRedeemed := false;
     StoreCredit.redeemedAt := None;
     StoreCredit.createdAt := now |}.

(** The database after a claim was stored and, when it was approved on the
    spot, its ledger entry written. *)
Definition decided (db : Db) (row : CreditSubmission.t) (amount : Qc)
    (description : string) (now : Z) : Db :=
  let '(sid, db1) := creditSubmission_create db row in
  if bool_decide (CreditSubmission.status row = APPROVED)
  then storeCredit_create db1 (earned (CreditSubmission.userId row) sid amount description now)
  else db1.

Definition statusOf (r : Credits.Response Credits.SubmitReply) : option CreditSubmissionStatus :=
  match r with
  | Credits.Res _ body => Some (Credits.s_status (Credits.submission body))
  | _ => None
  end.

Definition idOf (r : Credits.Response Credits.SubmitReply) : option nat :=
  match r with
  | Credits.Res _ body => Some (Credits.s_id (Credits.submission body))
  | _ => None
  end.

(** The outcome "approved on the spot": the reply names the new claim as
    APPROVED, the claim is stored as such, and exactly one ledger entry was
    appended, for this claim and for its claimed amount. *)
Definition autoApprovedBy (db : Db) (r : Credits.Response Credits.SubmitReply * Db) : Prop :=
  let sid := fresh (dom (creditSubmission db)) in
  idOf r.1 = Some sid ∧ statusOf r.1 = Some APPROVED
  ∧ ∃ row entry,
      creditSubmission r.2 !! sid = Some row
      ∧ CreditSubmission.status row = APPROVED
      ∧ storeCredit r.2 = <[fresh (dom (storeCredit db)) := entry]> (storeCredit db)
      ∧ StoreCredit.creditSubmissionId entry = Some sid
      ∧ CreditSubmission.claimedAmount row = Some (StoreCredit.amount entry).

(** The outcome "left to a reviewer": the reply names the new claim as
    PENDING, the ledger is untouched, and the claim is in the review queue. *)
Definition queuedBy (db : Db) (r : Credits.Response Credits.SubmitReply * Db) : Prop :=
  let sid := fresh (dom (creditSubmission db)) in
  idOf r.1 = Some sid ∧ statusOf r.1 = Some PENDING
  ∧ storeCredit r.2 = storeCredit db
  ∧ ∃ row, (sid, row) ∈ Credits.pendingQueue r.2 ∧ CreditSubmission.status row = PENDING.

(** The sum of a list of ledger rows. *)
Definition total (l : list (nat * StoreCredit.t)) : Qc :=
  foldr (λ kc acc, StoreCredit.amount kc.2 + acc) 0 l.

(** *** Concrete requests *)

(** The answer of the extraction service in scenario B: a consultation on a
    sale of $45, reported with confidence 0.95. *)
Definition scenarioB : AIService.AIData :=
  {| AIService.products := Some ["yoga mat"];
     AIService.customerDetails := Some "first-time customer";
     AIService.timeOfSale := None;
     AIService.ai_assistanceType := Some "consultation";
     AIService.assistanceDescription := None;
     AIService.ai_confidenceScore := Some (dec 95 100);
     AIService.estimatedSaleValue := Some (ofZ 45);
     AIService.ai_reasoning := None |}.

Definition memberContext : AIService.AIProcessingContext :=
  {| AIService.userId := "premium-member"; AIService.timestamp := None |}.

Definition noTimestampCheck : string → bool := λ _, true.

Definition member : Credits.User := {| Credits.id := "member-1"; Credits.role := MEMBER |}.

Definition staff : Credits.User := {| Credits.id := "staff-1"; Credits.role := STAFF |}.

Definition processed (estimatedCredit confidence : Qc) : Credits.ProcessedBody :=
  {| Credits.pb_processedData := Some (FromClient (Some "I helped sell a yoga mat to Sarah around 2pm"));
     Credits.pb_assistanceType := "consultation";
     Credits.pb_estimatedCredit := Some estimatedCredit;
     Credits.pb_confidence := Some confidence |}.

Definition yogaMat : Credits.SubmitBody :=
  {| Credits.rawInput := "I helped sell a yoga mat to Sarah around 2pm";
     Credits.saleTimestamp := None |}.

Definition voiceContext : ClaudeVoiceService.VoiceProcessingContext :=
  {| ClaudeVoiceService.userId := "member-1";
     ClaudeVoiceService.conversationHistory := None;
     ClaudeVoiceService.isFollowUp := None |}.

Definition approveAll : Credits.ReviewBody :=
  {| Credits.rb_status := "APPROVED";
     Credits.rb_approvedAmount := Some (ofZ 25);
     Credits.rb_reviewNotes := Some "second look" |}.


(** *** The mobile client: [ClaudeCreditService] and the credits screen *)

Module Client.

(** The object [processVoiceSubmission] returns when the request fails. *)
Definition fallback (transcriptText : string) : ClaudeVoiceService.ClaudeVoiceResult :=
  {| ClaudeVoiceService.processedData := ClaudeVoiceService.ProcessingFailed transcriptText;
     ClaudeVoiceService.assistanceType := "recommendation";
     ClaudeVoiceService.confidenceScore := dec 5 10;
     ClaudeVoiceService.estimatedCredit := ofZ 2;
     ClaudeVoiceService.needsFollowUp := true;
     ClaudeVoiceService.followUpQuestions :=
       Some ["Could you tell me more details about what you helped with?"];
     ClaudeVoiceService.conversationalResponse :=
       "I heard what you said, but I need a bit more information. Could you tell me more details about how you helped with the sale?";
     ClaudeVoiceService.shouldSpeak := true |}.

(** [ClaudeCreditService.processVoiceSubmission]: the body of a 2xx answer,
    the fallback on anything else. *)
Definition processVoiceSubmission (transcriptText : string)
    (response : Credits.Response ClaudeVoiceService.ClaudeVoiceResult)
    : ClaudeVoiceService.ClaudeVoiceResult :=
  match response with
  | Credits.Res _ data => data
  | _ => fallback transcriptText
  end.

(** The [currentSubmission] state of the credits screen. *)
Record Submission := {
  assistanceType : string;
  estimatedCredit : Qc;
  confidence : Qc;
  processedData : ClaudeVoiceService.ProcessedData;
}.

(** The state update at the end of [stopRecording]. *)
Definition stopRecording (currentSubmission : option Submission)
    (claudeResponse : ClaudeVoiceService.ClaudeVoiceResult) : option Submission :=
  if negb (ClaudeVoiceService.needsFollowUp claudeResponse)
  then Some {| assistanceType := ClaudeVoiceService.assistanceType claudeResponse;
               estimatedCredit := ClaudeVoiceService.estimatedCredit claudeResponse;
               confidence := ClaudeVoiceService.confidenceScore claudeResponse;
               processedData := ClaudeVoiceService.processedData claudeResponse |}
  else currentSubmission.

(** The [processedData] object as the server reads it: only its
    [originalTranscript] key, which the failure object does not have. *)
Definition toJson (pd : ClaudeVoiceService.ProcessedData) : Json :=
  match pd with
  | ClaudeVoiceService.Analysed originalTranscript _ _ => FromClient (Some originalTranscript)
  | ClaudeVoiceService.ProcessingFailed _ => FromClient None
  end.

(** The request body of [ClaudeCreditService.submitProcessedClaim]. *)
Definition submitProcessedClaim (submissionData : Submission) : Credits.ProcessedBody :=
  {| Credits.pb_processedData := Some (toJson (processedData submissionData));
     Credits.pb_assistanceType := assistanceType submissionData;
     Credits.pb_estimatedCredit := Some (estimatedCredit submissionData);
     Credits.pb_confidence := Some (confidence submissionData) |}.

(** [submitClaim]: nothing is sent without a [currentSubmission]. *)
Definition submitClaim (db : Db) (now : Z) (user : Credits.User)
    (currentSubmission : option Submission)
    : option (Credits.Response Credits.SubmitReply * Db) :=
  Credits.submit_processed db now user ∘ submitProcessedClaim <$> currentSubmission.

End Client.

(** *** Soundness of the two tables *)






(** The slice of a list that page [page] (counted from 1) of size [limit] shows. *)
Definition pageOf {A} (page limit : nat) (l : list A) : list A :=
  take limit (drop ((page - 1) * limit) l).

(** An answer of the extraction service with the three fields the
    calculator reads. *)
Definition answer (assistanceType : option string) (confidenceScore saleValue : option Qc)
    : AIService.AIData :=
  {| AIService.products := None;
     AIService.customerDetails := None;
     AIService.timeOfSale := None;
     AIService.ai_assistanceType := assistanceType;
     AIService.assistanceDescription := None;
     AIService.ai_confidenceScore := confidenceScore;
     AIService.estimatedSaleValue := saleValue;
     AIService.ai_reasoning := None |}.


Definition withSaleValue (d : AIService.AIData) (v : option Qc) : AIService.AIData :=
  {| AIService.products := AIService.products d;
     AIService.customerDetails := AIService.customerDetails d;
     AIService.timeOfSale := AIService.timeOfSale d;
     AIService.ai_assistanceType := AIService.ai_assistanceType d;
     AIService.assistanceDescription := AIService.assistanceDescription d;
     AIService.ai_confidenceScore := AIService.ai_confidenceScore d;
     AIService.estimatedSaleValue := v;
     AIService.ai_reasoning := AIService.ai_reasoning d |}.

(** The row a review leaves behind. *)
Definition reviewed (submission : CreditSubmission.t) (status : CreditSubmissionStatus)
    (approvedAmount : option Qc) (reviewerId : string) (reviewNotes : option string)
    (now : Z) : CreditSubmission.t :=
  {| CreditSubmission.userId := CreditSubmission.userId submission;
     CreditSubmission.saleId := CreditSubmission.saleId submission;
     CreditSubmission.rawInput := CreditSubmission.rawInput submission;
     CreditSubmission.processedData := CreditSubmission.processedData submission;
     CreditSubmission.assistanceType := CreditSubmission.assistanceType submission;
     CreditSubmission.confidenceScore := CreditSubmission.confidenceScore submission;
     CreditSubmission.claimedAmount := CreditSubmission.claimedAmount submission;
     CreditSubmission.approvedAmount :=
       or_opt approvedAmount (CreditSubmission.claimedAmount submission);
     CreditSubmission.status := status;
     CreditSubmission.reviewedBy := Some reviewerId;
     CreditSubmission.reviewNotes :=
       match reviewNotes with
       | Some n => Some n
       | None => CreditSubmission.reviewNotes submission
       end;
     CreditSubmission.submittedAt := CreditSubmission.submittedAt submission;
     CreditSubmission.reviewedAt := Some now |}.

(** A review request the middleware and the validators let through. *)
Definition admissible (user : Credits.User) (body : Credits.ReviewBody) : Prop :=
  Credits.requireRole [ADMIN; STAFF] user = true
  ∧ is_Some (Credits.parseStatus (Credits.rb_status body))
  ∧ Credits.optional (λ a, bool_decide (0 ≤ a)) (Credits.rb_approvedAmount body) = true
  ∧ Credits.optional (Credits.isLength 0 500) (trim <$> Credits.rb_reviewNotes body) = true.

Definition isOpen (submission : CreditSubmission.t) : Prop :=
  CreditSubmission.status submission = PENDING
  ∨ CreditSubmission.status submission = UNDER_REVIEW.

Definition rejectWith (notes : option string) : Credits.ReviewBody :=
  {| Credits.rb_status := "REJECTED";
     Credits.rb_approvedAmount := None;
     Credits.rb_reviewNotes := notes |}.


(** The database with one PENDING claim of $8 by [member], under id 0. *)
Definition onePending : Db :=
  (Credits.submit_processed emptyDb 0 member (processed (ofZ 8) (dec 5 10))).2.






(** The order of the own-claims listing, on the selected rows. *)
Definition latestFirstRow (a b : Credits.OwnSubmission) : Prop :=
  (Credits.o_submittedAt b ≤ Credits.o_submittedAt a)%Z.

(** A conversation of six turns. *)
Definition oneHistory : list string :=
  ["turn 1"; "turn 2"; "turn 3"; "turn 4"; "turn 5"; "turn 6"].

(** *** The voice flow, end to end *)

(** Category, estimate and confidence of a voice result. *)
Definition figures (r : ClaudeVoiceService.ClaudeVoiceResult) : string * Qc * Qc :=
  (ClaudeVoiceService.assistanceType r, ClaudeVoiceService.estimatedCredit r,
   ClaudeVoiceService.confidenceScore r).

Definition analysisFigures (a : ClaudeVoiceService.Analysis) : string * Qc * Qc :=
  (ClaudeVoiceService.a_assistanceType a, ClaudeVoiceService.a_estimatedCredit a,
   ClaudeVoiceService.confidence a).

(** The four rows of the keyword table of [ClaudeVoiceService]. *)
Definition voiceTable : list (string * Qc * Qc) :=
  [("consultation", ofZ 8, dec 8 10); ("problem_solving", ofZ 12, dec 9 10);
   ("assistance", ofZ 5, dec 75 100); ("recommendation", ofZ 2, dec 6 10)].

(** The figures of its [catch] block. *)
Definition voiceFailure : string * Qc * Qc := ("recommendation", ofZ 1, dec 3 10).

(** The eight combinations [OptimalClaudeService] can report. *)
Definition optimalTable : list (string * Qc * Qc) :=
  [("consultation", dec 64 10, dec 8 10); ("consultation", dec 48 10, dec 6 10);
   ("problem_solving", dec 96 10, dec 8 10); ("problem_solving", dec 72 10, dec 6 10);
   ("assistance", ofZ 4, dec 8 10); ("assistance", ofZ 3, dec 6 10);
   ("recommendation", dec 16 10, dec 8 10); ("recommendation", dec 12 10, dec 6 10)].

(** The screen after one recording: the request, the client's reading of the
    answer, the state update. *)
Definition recorded (user : Credits.User) (body : Credits.VoiceBody)
    (reply : ClaudeVoiceService.ClaudeReply) (currentSubmission : option Client.Submission)
    : option Client.Submission :=
  Client.stopRecording currentSubmission
    (Client.processVoiceSubmission (Credits.transcript body)
       (Credits.voice_process user body reply)).

Definition voiceBody : Credits.VoiceBody :=
  {| Credits.transcript := "I explained chakra stones to a visitor";
     Credits.context := voiceContext |}.

(** The characters of a string, and texts that are spaced for speech: the
    only white space is the space character, never twice in a row. *)
Definition chars (s : string) : list ascii := String.list_ascii_of_string s.

Fixpoint singleSpaced (afterSpace : bool) (l : list ascii) : bool :=
  match l with
  | [] => true
  | c :: l' =>
      if is_ws c
      then bool_decide (c = " "%char) && negb afterSpace && singleSpaced true l'
      else singleSpaced false l'
  end.

(** ** Arithmetic of the clamp and of the threshold *)

(** Equality of two closed rationals, decided on their reduced fractions. *)
Ltac qc_eq := apply Qc_is_canon; vm_compute; reflexivity.

Lemma dec_le_0_1_10 : 0 ≤ dec 1 10.
Proof. by vm_compute. Qed.

Lemma Math_min_le_l a b : Math_min a b ≤ a.
Proof.
  unfold Math_min. case_bool_decide as H; [apply Qcle_refl |].
  apply Qclt_le_weak, Qcnot_le_lt, H.
Qed.

Lemma Math_max_ge_l a b : a ≤ Math_max a b.
Proof.
  unfold Math_max. case_bool_decide as H; [done | apply Qcle_refl].
Qed.

Lemma Math_max_lub a b c : a ≤ c → b ≤ c → Math_max a b ≤ c.
Proof. unfold Math_max. by case_bool_decide. Qed.

(** [Math.max(0.1, Math.min(1.0, x))] always lands in [[0.1, 1]]. *)
Lemma clamp_range x :
  dec 1 10 ≤ Math_max (dec 1 10) (Math_min 1 x)
  ∧ Math_max (dec 1 10) (Math_min 1 x) ≤ 1.
Proof.
  split; [apply Math_max_ge_l |].
  apply Math_max_lub; [by vm_compute | apply Math_min_le_l].
Qed.

Lemma clamp_id x : dec 1 10 ≤ x → x ≤ 1 → Math_max (dec 1 10) (Math_min 1 x) = x.
Proof.
  intros Hlo Hhi. unfold Math_max, Math_min.
  destruct (bool_decide_reflect (1 ≤ x)) as [H1|H1].
  - assert (x = 1) as -> by (by apply Qcle_antisym). qc_eq.
  - by rewrite bool_decide_eq_true_2.
Qed.

(** ** The model at work on small inputs *)

Example trim_strips_both_ends : trim "  sold a candle   " = "sold a candle".
Proof. reflexivity. Qed.

Example lower_case_is_ascii : toLowerCase "I Explained Chakras" = "i explained chakras".
Proof. reflexivity. Qed.

Example round_half_up : Math_round (dec 8005 10) = 801%Z ∧ Math_round (dec 80028 100) = 800%Z.
Proof. by vm_compute. Qed.

Example question_runs :
  ClaudeVoiceService.questionMatches "Lovely! What time was it? Which product. Thanks"
  = [" What time was it? Which product"].
Proof. reflexivity. Qed.

Example spoken_text_is_flattened :
  ClaudeVoiceService.makeConversational "  Thank you.
   What   time was it?  " = "Thank you. What time was it?".
Proof. reflexivity. Qed.

(** Scenario A: no sale value, category consultation, confidence 0.92: the
    default amount 10 scaled to 9.20. *)
Example scenarioA_amount :
  AIService.estimatedCredit
    (AIService.processWithAI "I helped sell a yoga mat to Sarah around 2pm" memberContext
       (AIService.Parsed
          {| AIService.products := Some ["yoga mat"];
             AIService.customerDetails := Some "Sarah";
             AIService.timeOfSale := Some "2pm";
             AIService.ai_assistanceType := Some "consultation";
             AIService.assistanceDescription := None;
             AIService.ai_confidenceScore := Some (dec 92 100);
             AIService.estimatedSaleValue := None;
             AIService.ai_reasoning := None |}))
  = dec 92 10.
Proof. qc_eq. Qed.

(** The cap: a problem solved on a sale of $1000 earns 50, not 180. *)
Example capped_amount :
  AIService.estimatedCredit
    (AIService.processWithAI "I built a custom wellness plan" memberContext
       (AIService.Parsed
          {| AIService.products := None;
             AIService.customerDetails := None;
             AIService.timeOfSale := None;
             AIService.ai_assistanceType := Some "problem_solving";
             AIService.assistanceDescription := None;
             AIService.ai_confidenceScore := Some 1;
             AIService.estimatedSaleValue := Some (ofZ 1000);
             AIService.ai_reasoning := None |}))
  = ofZ 50.
Proof. qc_eq. Qed.

(** ** The credit calculator inside [processWithAI] *)

(** With a parsed answer the estimate is the sale value times the rate (or
    the default amount of the category), times the clamped confidence,
    capped at 50 and rounded to cents once. *)
Lemma processWithAI_estimate rawInput context d :
  let t := or_str (AIService.ai_assistanceType d) "recommendation" in
  let c := Math_max (dec 1 10) (Math_min 1 (or_num (AIService.ai_confidenceScore d) (dec 1 2))) in
  let v := Math_max 0 (or_num (AIService.estimatedSaleValue d) 0) in
  let base :=
    if bool_decide (0 < v)
    then v * or_num (AIService.ASSISTANCE_TYPES_rate t) (dec 3 100)
    else or_num (AIService.defaultCredits t) (ofZ 2) in
  AIService.processWithAI rawInput context (AIService.Parsed d)
  = {| AIService.processedData :=
         AIService.processedData (AIService.processWithAI rawInput context (AIService.Parsed d));
       AIService.assistanceType := t;
       AIService.confidenceScore := c;
       AIService.estimatedCredit :=
         ofZ (Math_round (Math_min (base * c) (ofZ 50) * ofZ 100)) / ofZ 100;
       AIService.reasoning := or_str (AIService.ai_reasoning d) "AI analysis completed" |}.
Proof. reflexivity. Qed.




(** ** What the two submission routes write *)

Lemma submit_processed_valid db now user pd t est conf :
  Credits.isAssistanceType t = true → 0 ≤ est → 0 ≤ conf → conf ≤ 1 →
  Credits.submit_processed db now user
    {| Credits.pb_processedData := Some pd; Credits.pb_assistanceType := t;
       Credits.pb_estimatedCredit := Some est; Credits.pb_confidence := Some conf |}
  = let row := newClaim (Credits.id user)
                 (or_str (Credits.originalTranscript pd) "Voice submission") pd t conf est now in
    (Credits.Res 201 (Credits.summary (fresh (dom (creditSubmission db))) row),
     decided db row est ("Voice credit for " +:+ t) now).
Proof.
  intros Ht He Hc0 Hc1. unfold Credits.submit_processed, decided, Credits.isFloat.
  cbn [Credits.pb_processedData Credits.pb_assistanceType Credits.pb_estimatedCredit
       Credits.pb_confidence Credits.isObject].
  rewrite Ht, !bool_decide_eq_true_2 by done. cbn [andb negb].
  unfold creditSubmission_create.
  cbn [CreditSubmission.status CreditSubmission.claimedAmount CreditSubmission.assistanceType
       CreditSubmission.userId newClaim default].
  by case_bool_decide.
Qed.

Lemma submit_processed_invalid db now user body :
  (∀ pd est conf,
     Credits.pb_processedData body = Some pd → Credits.pb_estimatedCredit body = Some est →
     Credits.pb_confidence body = Some conf →
     ¬ (Credits.isAssistanceType (Credits.pb_assistanceType body) = true
        ∧ 0 ≤ est ∧ 0 ≤ conf ∧ conf ≤ 1)) →
  Credits.submit_processed db now user body = (Credits.AppError "Validation failed" 400, db).
Proof.
  intros Hbad. unfold Credits.submit_processed, Credits.isFloat, Credits.isObject.
  destruct (Credits.pb_processedData body) as [pd|]; [|done].
  destruct (Credits.pb_estimatedCredit body) as [est|]; [|by rewrite !andb_false_r].
  destruct (Credits.pb_confidence body) as [conf|]; [|by rewrite !andb_false_r].
  specialize (Hbad pd est conf eq_refl eq_refl eq_refl).
  destruct (Credits.isAssistanceType _); [|done].
  repeat case_bool_decide; try done; exfalso; apply Hbad; auto.
Qed.

Lemma submit_valid isISO8601 db now user body completion :
  Credits.isLength 10 1000 (trim (Credits.rawInput body)) = true →
  Credits.optional isISO8601 (Credits.saleTimestamp body) = true →
  Credits.submit isISO8601 db now user body completion
  = let ai := AIService.processWithAI (trim (Credits.rawInput body))
                {| AIService.userId := Credits.id user;
                   AIService.timestamp := Credits.saleTimestamp body |} completion in
    let row := newClaim (Credits.id user) (trim (Credits.rawInput body))
                 (FromAI (AIService.processedData ai)) (AIService.assistanceType ai)
                 (AIService.confidenceScore ai) (AIService.estimatedCredit ai) now in
    (Credits.Res 201 (Credits.summary (fresh (dom (creditSubmission db))) row),
     decided db row (AIService.estimatedCredit ai)
       ("Credit for " +:+ AIService.assistanceType ai) now).
Proof.
  intros Hlen Hts. unfold Credits.submit, decided. rewrite Hlen, Hts. cbn [andb negb].
  unfold creditSubmission_create.
  cbn [CreditSubmission.status CreditSubmission.claimedAmount CreditSubmission.assistanceType
       CreditSubmission.userId newClaim default].
  by case_bool_decide.
Qed.

Lemma submit_invalid isISO8601 db now user body completion :
  Credits.isLength 10 1000 (trim (Credits.rawInput body))
  && Credits.optional isISO8601 (Credits.saleTimestamp body) = false →
  Credits.submit isISO8601 db now user body completion
  = (Credits.AppError "Validation failed" 400, db).
Proof. intros H. unfold Credits.submit. by rewrite H. Qed.

Lemma decided_creditSubmission db row amount description now :
  creditSubmission (decided db row amount description now)
  = <[fresh (dom (creditSubmission db)) := row]> (creditSubmission db).
Proof. unfold decided, creditSubmission_create. by case_bool_decide. Qed.

Lemma decided_storeCredit db row amount description now :
  storeCredit (decided db row amount description now)
  = if bool_decide (CreditSubmission.status row = APPROVED)
    then <[fresh (dom (storeCredit db)) :=
             earned (CreditSubmission.userId row) (fresh (dom (creditSubmission db)))
                    amount description now]> (storeCredit db)
    else storeCredit db.
Proof. unfold decided, creditSubmission_create. by case_bool_decide. Qed.

Lemma fresh_lookup {A} (m : gmap nat A) : m !! fresh (dom m) = None.
Proof. apply not_elem_of_dom, is_fresh. Qed.

Lemma newClaim_status userId rawInput pd t conf amount now :
  CreditSubmission.status (newClaim userId rawInput pd t conf amount now)
  = if bool_decide (dec 8 10 ≤ conf) then APPROVED else PENDING.
Proof. reflexivity. Qed.

(** ** The ledger entries of a claim under the database operations *)

Lemma creditsOf_storeCredit_create db entry id :
  creditsOf (storeCredit_create db entry) id
  = if decide (StoreCredit.creditSubmissionId entry = Some id)
    then <[fresh (dom (storeCredit db)) := entry]> (creditsOf db id)
    else creditsOf db id.
Proof.
  unfold creditsOf, storeCredit_create. cbn [storeCredit].
  rewrite map_filter_insert. cbn [snd].
  case_decide; [done |]. by rewrite delete_id by apply fresh_lookup.
Qed.

Lemma creditsOf_same_ledger db db' id :
  storeCredit db = storeCredit db' → creditsOf db id = creditsOf db' id.
Proof. unfold creditsOf. by intros ->. Qed.

Lemma terminal_cases s :
  bool_decide (terminal s) = bool_decide (s ≠ PENDING) && bool_decide (s ≠ UNDER_REVIEW).
Proof. unfold terminal. destruct s; by vm_compute. Qed.

Lemma ledgerInv_empty : ledgerInv emptyDb.
Proof. intros id. cbn. rewrite lookup_empty. unfold creditsOf. apply map_filter_empty. Qed.

Lemma ledgerInv_decided db row amount description now :
  ledgerInv db → ledgerInv (decided db row amount description now).
Proof.
  intros Hinv id. rewrite decided_creditSubmission.
  pose proof (Hinv (fresh (dom (creditSubmission db)))) as Hnew.
  rewrite fresh_lookup in Hnew.
  assert (creditsOf (decided db row amount description now) id
          = if bool_decide (CreditSubmission.status row = APPROVED
                            ∧ id = fresh (dom (creditSubmission db)))
            then {[ fresh (dom (storeCredit db)) :=
                      earned (CreditSubmission.userId row) id amount description now ]}
            else creditsOf db id) as ->.
  { unfold decided, creditSubmission_create.
    destruct (bool_decide_reflect (CreditSubmission.status row = APPROVED)) as [Ha|Ha].
    - rewrite creditsOf_storeCredit_create. cbn [earned StoreCredit.creditSubmissionId].
      case_decide as Hid; simplify_eq.
      + rewrite bool_decide_eq_true_2 by done.
        rewrite (creditsOf_same_ledger _ db) by done. by rewrite Hnew, insert_empty.
      + rewrite bool_decide_eq_false_2 by (by intros [_ ->]). by apply creditsOf_same_ledger.
    - rewrite bool_decide_eq_false_2 by (by intros [? _]). by apply creditsOf_same_ledger. }
  destruct (decide (id = fresh (dom (creditSubmission db)))) as [->|Hne].
  - rewrite lookup_insert_eq.
    destruct (bool_decide_reflect (CreditSubmission.status row = APPROVED)) as [Ha|Ha].
    + rewrite (bool_decide_eq_true_2 (terminal _)) by (by left).
      rewrite bool_decide_eq_true_2 by done. by rewrite map_size_singleton.
    + rewrite (bool_decide_eq_false_2 (_ ∧ _)) by tauto.
      rewrite Hnew. case_bool_decide; [rewrite map_size_empty; lia | done].
  - rewrite lookup_insert_ne by done.
    rewrite (bool_decide_eq_false_2 (_ ∧ _)) by tauto.
    apply Hinv.
Qed.

Lemma ledgerInv_review db now user id body :
  ledgerInv db → ledgerInv (Credits.review db now user id body).2.
Proof.
  intros Hinv. unfold Credits.review.
  destruct (negb _); [done |].
  destruct (Credits.parseStatus _) as [status|] eqn:Hst; [|done].
  destruct (negb _); [done |].
  destruct (creditSubmission db !! id) as [submission|] eqn:Hsub; [|done].
  pose proof (Hinv id) as Hid. rewrite Hsub, terminal_cases in Hid.
  destruct (_ && _); [done |].
  assert (terminal status) as Hterm.
  { unfold Credits.parseStatus in Hst. unfold terminal.
    repeat case_match; simplify_eq; auto. }
  set (updated := CreditSubmission.Build_t _ _ _ _ _ _ _ _ _ _ _ _ _).
  set (db1 := creditSubmission_update db id updated).
  assert (ledgerInv db1) as Hinv1.
  { intros j. unfold db1, creditSubmission_update. cbn [creditSubmission].
    rewrite (creditsOf_same_ledger _ db) by done.
    destruct (decide (j = id)) as [->|Hne].
    - rewrite lookup_insert_eq. cbn [CreditSubmission.status updated].
      rewrite bool_decide_eq_true_2 by done. rewrite Hid, map_size_empty; lia.
    - rewrite lookup_insert_ne by done. apply Hinv. }
  case_bool_decide as Happ; [|done].
  destruct (or_opt _ _) as [amount|]; [|done].
  cbn [snd]. intros j. unfold storeCredit_create at 1. cbn [creditSubmission].
  rewrite creditsOf_storeCredit_create. cbn [StoreCredit.creditSubmissionId].
  case_decide as Hj; [|apply Hinv1]. simplify_eq.
  unfold db1 at 1, creditSubmission_update. cbn [creditSubmission].
  rewrite lookup_insert_eq. cbn [CreditSubmission.status updated].
  rewrite bool_decide_eq_true_2 by done.
  rewrite (creditsOf_same_ledger db1 db) by done.
  by rewrite Hid, insert_empty, map_size_singleton.
Qed.

(** ** Confidence of what is stored *)

Lemma processWithAI_confidence_range rawInput context completion :
  dec 1 10 ≤ AIService.confidenceScore (AIService.processWithAI rawInput context completion)
  ∧ AIService.confidenceScore (AIService.processWithAI rawInput context completion) ≤ 1.
Proof.
  destruct completion; try (split; by vm_compute).
  rewrite processWithAI_estimate. cbn [AIService.confidenceScore]. apply clamp_range.
Qed.

Lemma confidenceInv_empty : confidenceInv emptyDb.
Proof. intros id submission. cbn. by rewrite lookup_empty. Qed.

Lemma confidenceInv_decided db userId rawInput pd t conf est description now :
  0 ≤ conf → conf ≤ 1 → confidenceInv db →
  confidenceInv (decided db (newClaim userId rawInput pd t conf est now) est description now).
Proof.
  intros H0 H1 Hinv id submission. rewrite decided_creditSubmission.
  destruct (decide (id = fresh (dom (creditSubmission db)))) as [->|Hne].
  - rewrite lookup_insert_eq. intros [= <-]. by exists conf.
  - rewrite lookup_insert_ne by done. apply Hinv.
Qed.

Lemma confidenceInv_review db now user id body :
  confidenceInv db → confidenceInv (Credits.review db now user id body).2.
Proof.
  intros Hinv. unfold Credits.review.
  destruct (negb _); [done |].
  destruct (Credits.parseStatus _) as [status|]; [|done].
  destruct (negb _); [done |].
  destruct (creditSubmission db !! id) as [submission|] eqn:Hsub; [|done].
  destruct (_ && _); [done |].
  set (updated := CreditSubmission.Build_t _ _ _ _ _ _ _ _ _ _ _ _ _).
  assert (confidenceInv (creditSubmission_update db id updated)) as Hinv1.
  { intros j s. unfold creditSubmission_update. cbn [creditSubmission].
    destruct (decide (j = id)) as [->|Hne].
    - rewrite lookup_insert_eq. intros [= <-]. exact (Hinv id submission Hsub).
    - rewrite lookup_insert_ne by done. apply Hinv. }
  case_bool_decide; [|done]. by destruct (or_opt _ _).
Qed.

(** ** Every request keeps the invariants *)

Lemma submit_db isISO8601 db now user body completion :
  (Credits.submit isISO8601 db now user body completion).2 = db
  ∨ ∃ userId rawInput pd t conf est description,
      dec 1 10 ≤ conf ∧ conf ≤ 1
      ∧ (Credits.submit isISO8601 db now user body completion).2
        = decided db (newClaim userId rawInput pd t conf est now) est description now.
Proof.
  destruct (Credits.isLength 10 1000 (trim (Credits.rawInput body))) eqn:Hlen;
    [|left; by rewrite submit_invalid by (by rewrite Hlen)].
  destruct (Credits.optional isISO8601 (Credits.saleTimestamp body)) eqn:Hts;
    [|left; by rewrite submit_invalid by (by rewrite Hlen, Hts)].
  right. rewrite submit_valid by done. cbn [snd].
  eexists _, _, _, _, _, _, _. split_and!; [| |reflexivity];
    apply processWithAI_confidence_range.
Qed.

Lemma submit_processed_db db now user body :
  (Credits.submit_processed db now user body).2 = db
  ∨ ∃ userId rawInput pd t conf est description,
      0 ≤ conf ∧ conf ≤ 1
      ∧ (Credits.submit_processed db now user body).2
        = decided db (newClaim userId rawInput pd t conf est now) est description now.
Proof.
  destruct body as [[pd|] t [est|] [conf|]];
    try (left; rewrite submit_processed_invalid; [done | by cbn]).
  assert (Decision (Credits.isAssistanceType t = true ∧ 0 ≤ est ∧ 0 ≤ conf ∧ conf ≤ 1))
    as [(Ht & He & Hc0 & Hc1)|Hbad] by apply _.
  - right. rewrite submit_processed_valid by done. cbn [snd].
    by eexists _, _, _, _, _, _, _.
  - left. rewrite submit_processed_invalid; [done |].
    cbn. by intros ??? [= <-] [= <-] [= <-].
Qed.

Lemma step_invariants isISO8601 db db' :
  step isISO8601 db db' → ledgerInv db ∧ confidenceInv db → ledgerInv db' ∧ confidenceInv db'.
Proof.
  intros Hstep [Hl Hc]. destruct Hstep as [now user body completion|now user body|now user id body].
  - destruct (submit_db isISO8601 db now user body completion)
      as [->|(?&?&?&?&conf&?&?&Hlo&Hhi&->)]; [done |].
    split; [by apply ledgerInv_decided |].
    apply confidenceInv_decided; [|done..].
    eapply Qcle_trans; [apply dec_le_0_1_10 | done].
  - destruct (submit_processed_db db now user body)
      as [->|(?&?&?&?&conf&?&?&Hlo&Hhi&->)]; [done |].
    split; [by apply ledgerInv_decided | by apply confidenceInv_decided].
  - split; [by apply ledgerInv_review | by apply confidenceInv_review].
Qed.

Lemma reachable_invariants isISO8601 db :
  reachable isISO8601 db → ledgerInv db ∧ confidenceInv db.
Proof.
  unfold reachable. intros Hreach.
  eapply (rtc_ind_r (λ d, ledgerInv d ∧ confidenceInv d)); [| |exact Hreach].
  - split; [apply ledgerInv_empty | apply confidenceInv_empty].
  - intros d d' _ Hstep IH. by eapply step_invariants.
Qed.

(** The ledger only grows: a request leaves every existing entry as it is. *)
Lemma storeCredit_create_subseteq db entry :
  storeCredit db ⊆ storeCredit (storeCredit_create db entry).
Proof. apply insert_subseteq, fresh_lookup. Qed.

Lemma step_ledger_append_only isISO8601 db db' :
  step isISO8601 db db' → storeCredit db ⊆ storeCredit db'.
Proof.
  intros [now user body completion|now user body|now user id body].
  - destruct (submit_db isISO8601 db now user body completion)
      as [->|(?&?&?&?&?&?&?&_&_&->)]; [done |].
    rewrite decided_storeCredit. case_bool_decide; [|done].
    apply insert_subseteq, fresh_lookup.
  - destruct (submit_processed_db db now user body)
      as [->|(?&?&?&?&?&?&?&_&_&->)]; [done |].
    rewrite decided_storeCredit. case_bool_decide; [|done].
    apply insert_subseteq, fresh_lookup.
  - unfold Credits.review.
    destruct (negb _); [done |].
    destruct (Credits.parseStatus _); [|done].
    destruct (negb _); [done |].
    destruct (creditSubmission db !! id); [|done].
    destruct (_ && _); [done |].
    case_bool_decide; [|done].
    destruct (or_opt _ _); [|done].
    apply (storeCredit_create_subseteq (creditSubmission_update _ _ _)).
Qed.

(** ** The decision step *)

Lemma statusOf_summary code sid row :
  statusOf (Credits.Res code (Credits.summary sid row)) = Some (CreditSubmission.status row).
Proof. reflexivity. Qed.

Lemma threshold_below conf : conf < dec 8 10 → bool_decide (dec 8 10 ≤ conf) = false.
Proof. intros H. apply bool_decide_eq_false_2. by apply Qclt_not_le. Qed.



Lemma pendingQueue_elem db id row :
  (id, row) ∈ Credits.pendingQueue db
  ↔ creditSubmission db !! id = Some row
    ∧ (CreditSubmission.status row = PENDING ∨ CreditSubmission.status row = UNDER_REVIEW).
Proof.
  unfold Credits.pendingQueue. rewrite merge_sort_Permutation.
  rewrite list_elem_of_filter, elem_of_map_to_list. unfold Credits.isPending. cbn [snd].
  rewrite bool_decide_eq_true, !elem_of_cons, elem_of_nil. tauto.
Qed.

(** What a stored claim and the threshold make of the database. *)
Lemma decided_outcome db userId rawInput pd t conf est description now code :
  let row := newClaim userId rawInput pd t conf est now in
  let r := (Credits.Res code (Credits.summary (fresh (dom (creditSubmission db))) row),
            decided db row est description now) in
  (autoApprovedBy db r ↔ dec 8 10 ≤ conf) ∧ (queuedBy db r ↔ conf < dec 8 10).
Proof.
  cbn zeta. unfold autoApprovedBy, queuedBy. cbn [fst snd idOf].
  rewrite statusOf_summary, decided_creditSubmission, decided_storeCredit, newClaim_status.
  destruct (bool_decide_reflect (dec 8 10 ≤ conf)) as [Hge|Hlt].
  - split; split; try done.
    + intros _. split_and!; try done.
      eexists _, _. rewrite lookup_insert_eq. split_and!; try reflexivity.
      rewrite newClaim_status. by rewrite bool_decide_eq_true_2.
    + intros (_ & [=] & _).
    + intros Hlt. by apply Qclt_not_le in Hlt.
  - apply Qcnot_le_lt in Hlt. split; split; try done.
    + intros (_ & [=] & _).
    + intros Hge. by apply Qclt_not_le in Hlt.
    + intros _. split_and!; try done.
      eexists. rewrite pendingQueue_elem, decided_creditSubmission, lookup_insert_eq.
      rewrite newClaim_status, threshold_below by done. auto.
Qed.

(** C2, as stated, fails.  On [/submit-processed] a claim of $1000 with
    confidence 0.9 is approved and paid in full; and no ceiling, whatever its
    value, makes the stated equivalence true. *)
Lemma C2_no_ceiling_on_approval :
  autoApprovedBy emptyDb (Credits.submit_processed emptyDb 0 member (processed (ofZ 1000) (dec 9 10)))
  ∧ ¬ ∃ ceiling : Qc,
        ∀ db now user pd t est conf,
          Credits.isAssistanceType t = true → 0 ≤ est → 0 ≤ conf → conf ≤ 1 →
          statusOf (Credits.submit_processed db now user
                      {| Credits.pb_processedData := Some pd; Credits.pb_assistanceType := t;
                         Credits.pb_estimatedCredit := Some est;
                         Credits.pb_confidence := Some conf |}).1 = Some APPROVED
          ↔ dec 8 10 ≤ conf ∧ est ≤ ceiling.
Proof.
  split.
  - unfold processed. rewrite submit_processed_valid by (by vm_compute).
    apply decided_outcome. by vm_compute.
  - intros [ceiling Hclaim].
    assert (0 ≤ Math_max 0 ceiling + 1) as Hpos.
    { replace 0 with (0 + 0) at 1 by ring.
      apply Qcplus_le_compat; [apply Math_max_ge_l | by vm_compute]. }
    destruct (Hclaim emptyDb 0%Z member (FromClient None) "assistance"
                (Math_max 0 ceiling + 1) (dec 9 10)) as [Hap _];
      [by vm_compute | done | by vm_compute | by vm_compute |].
    destruct Hap as [_ Hle].
    { rewrite submit_processed_valid by (done || by vm_compute).
      cbn [fst]. rewrite statusOf_summary, newClaim_status.
      by rewrite bool_decide_eq_true_2 by (by vm_compute). }
    assert (ceiling ≤ Math_max 0 ceiling) as Hmax.
    { unfold Math_max. case_bool_decide as H0; [apply Qcle_refl |].
      apply Qclt_le_weak, Qcnot_le_lt, H0. }
    assert (Math_max 0 ceiling + 1 ≤ Math_max 0 ceiling + 0) as Habs.
    { rewrite Qcplus_0_r. by eapply Qcle_trans. }
    apply Qcplus_le_mono_l in Habs. by vm_compute in Habs.
Qed.

(** C2, amended: on both submission routes the new claim is set to APPROVED,
    with one ledger entry written for it, if and only if its confidence is at
    least 0.80; in every other case it is set to PENDING, nothing is written
    to the ledger and the claim is in the review queue.  The amount takes no
    part in the decision. *)
Theorem C2_decision_by_confidence_alone isISO8601 db now user :
  (∀ body completion,
     Credits.isLength 10 1000 (trim (Credits.rawInput body)) = true →
     Credits.optional isISO8601 (Credits.saleTimestamp body) = true →
     let conf := AIService.confidenceScore
                   (AIService.processWithAI (trim (Credits.rawInput body))
                      {| AIService.userId := Credits.id user;
                         AIService.timestamp := Credits.saleTimestamp body |} completion) in
     let r := Credits.submit isISO8601 db now user body completion in
     (autoApprovedBy db r ↔ dec 8 10 ≤ conf) ∧ (queuedBy db r ↔ conf < dec 8 10))
  ∧ (∀ pd t est conf,
       Credits.isAssistanceType t = true → 0 ≤ est → 0 ≤ conf → conf ≤ 1 →
       let r := Credits.submit_processed db now user
                  {| Credits.pb_processedData := Some pd; Credits.pb_assistanceType := t;
                     Credits.pb_estimatedCredit := Some est;
                     Credits.pb_confidence := Some conf |} in
       (autoApprovedBy db r ↔ dec 8 10 ≤ conf) ∧ (queuedBy db r ↔ conf < dec 8 10)).
Proof.
  split.
  - intros body completion Hlen Hts. cbn zeta. rewrite submit_valid by done.
    apply decided_outcome.
  - intros pd t est conf Ht He Hc0 Hc1. cbn zeta. rewrite submit_processed_valid by done.
    apply decided_outcome.
Qed.

Lemma C2_decision_by_confidence_alone_witness :
  autoApprovedBy emptyDb
    (Credits.submit noTimestampCheck emptyDb 0 member yogaMat (AIService.Parsed scenarioB))
  ∧ queuedBy emptyDb (Credits.submit_processed emptyDb 0 member (processed (ofZ 10) (dec 5 10))).
Proof.
  destruct (C2_decision_by_confidence_alone noTimestampCheck emptyDb 0 member) as [Hs Hp].
  split.
  - apply (Hs yogaMat (AIService.Parsed scenarioB)); by vm_compute.
  - apply (Hp (FromClient (Some "I helped sell a yoga mat to Sarah around 2pm"))
              "consultation" (ofZ 10) (dec 5 10)); by vm_compute.
Defined.

(** A confidence the service reports inside [[0.1, 1]] is stored as it is. *)
Lemma processWithAI_confidence rawInput context d c :
  AIService.ai_confidenceScore d = Some c → dec 1 10 ≤ c → c ≤ 1 →
  AIService.confidenceScore (AIService.processWithAI rawInput context (AIService.Parsed d)) = c.
Proof.
  intros Hd Hlo Hhi. rewrite processWithAI_estimate. cbn [AIService.confidenceScore].
  rewrite Hd. unfold or_num. rewrite bool_decide_eq_false_2; [by apply clamp_id |].
  intros ->. by vm_compute in Hlo.
Qed.

(** C9: at a confidence of exactly 0.80 the claim is approved on the spot;
    at 0.79, one step of the two-decimal confidence column below, the same
    request is left PENDING.  This holds on [/submit-processed] for the
    confidence of the request and on [/submit] for the confidence the
    extraction service reports. *)
Theorem C9_threshold_boundary isISO8601 db now user pd t est body d :
  Credits.isAssistanceType t = true → 0 ≤ est →
  Credits.isLength 10 1000 (trim (Credits.rawInput body)) = true →
  Credits.optional isISO8601 (Credits.saleTimestamp body) = true →
  autoApprovedBy db
    (Credits.submit_processed db now user
       {| Credits.pb_processedData := Some pd; Credits.pb_assistanceType := t;
          Credits.pb_estimatedCredit := Some est; Credits.pb_confidence := Some (dec 80 100) |})
  ∧ queuedBy db
      (Credits.submit_processed db now user
         {| Credits.pb_processedData := Some pd; Credits.pb_assistanceType := t;
            Credits.pb_estimatedCredit := Some est; Credits.pb_confidence := Some (dec 79 100) |})
  ∧ (AIService.ai_confidenceScore d = Some (dec 80 100) →
     autoApprovedBy db (Credits.submit isISO8601 db now user body (AIService.Parsed d)))
  ∧ (AIService.ai_confidenceScore d = Some (dec 79 100) →
     queuedBy db (Credits.submit isISO8601 db now user body (AIService.Parsed d))).
Proof.
  intros Ht He Hlen Hts. split_and!.
  - rewrite submit_processed_valid by (done || by vm_compute).
    apply decided_outcome. by vm_compute.
  - rewrite submit_processed_valid by (done || by vm_compute).
    apply decided_outcome. by vm_compute.
  - intros Hd. rewrite submit_valid by done. apply decided_outcome.
    rewrite (processWithAI_confidence _ _ _ _ Hd) by (by vm_compute). by vm_compute.
  - intros Hd. rewrite submit_valid by done. apply decided_outcome.
    rewrite (processWithAI_confidence _ _ _ _ Hd) by (by vm_compute). by vm_compute.
Qed.

Lemma C9_threshold_boundary_witness :
  autoApprovedBy emptyDb (Credits.submit_processed emptyDb 0 member (processed (ofZ 8) (dec 80 100)))
  ∧ queuedBy emptyDb (Credits.submit_processed emptyDb 0 member (processed (ofZ 8) (dec 79 100))).
Proof.
  destruct (C9_threshold_boundary noTimestampCheck emptyDb 0 member
              (FromClient (Some "I helped sell a yoga mat to Sarah around 2pm"))
              "consultation" (ofZ 8) yogaMat scenarioB) as (Ha & Hq & _);
    [by vm_compute.. |].
  by split.
Defined.

(** ** Resubmission *)

Lemma submit_creates isISO8601 db now user body completion :
  Credits.isLength 10 1000 (trim (Credits.rawInput body)) = true →
  Credits.optional isISO8601 (Credits.saleTimestamp body) = true →
  let r := Credits.submit isISO8601 db now user body completion in
  let sid := fresh (dom (creditSubmission db)) in
  ∃ row,
    r.1 = Credits.Res 201 (Credits.summary sid row)
    ∧ creditSubmission r.2 = <[sid := row]> (creditSubmission db)
    ∧ CreditSubmission.userId row = Credits.id user
    ∧ CreditSubmission.rawInput row = trim (Credits.rawInput body).
Proof.
  intros Hlen Hts. cbn zeta. rewrite submit_valid by done. cbn [fst snd].
  eexists. rewrite decided_creditSubmission. by split_and!.
Qed.

(** C3, as stated, fails: the same member sends the same text twice, one
    second apart; both calls are answered 201 and two claims exist. *)
Lemma C3_second_submission_accepted :
  let r1 := Credits.submit noTimestampCheck emptyDb 0 member yogaMat
              (AIService.Parsed scenarioB) in
  let r2 := Credits.submit noTimestampCheck r1.2 1000 member yogaMat
              (AIService.Parsed scenarioB) in
  (∃ reply, r1.1 = Credits.Res 201 reply)
  ∧ (∃ reply, r2.1 = Credits.Res 201 reply)
  ∧ size (creditSubmission r2.2) = 2%nat.
Proof.
  cbn zeta.
  destruct (submit_creates noTimestampCheck emptyDb 0 member yogaMat
              (AIService.Parsed scenarioB)) as (row1 & Hr1 & Hdb1 & _); [by vm_compute.. |].
  destruct (submit_creates noTimestampCheck
              (Credits.submit noTimestampCheck emptyDb 0 member yogaMat
                 (AIService.Parsed scenarioB)).2 1000 member yogaMat
              (AIService.Parsed scenarioB)) as (row2 & Hr2 & Hdb2 & _); [by vm_compute.. |].
  split_and!; [by eexists.. |].
  rewrite Hdb2, map_size_insert_None by apply fresh_lookup.
  rewrite Hdb1, map_size_insert_None by apply fresh_lookup.
  reflexivity.
Qed.

(** C3, amended: of two submissions of the same text by the same member,
    however close in time, both create a claim, each under its own id, and
    two more claims exist afterwards.  The route keeps no fingerprint and
    no dedup window. *)
Theorem C3_every_submission_creates_a_claim isISO8601 db now1 now2 user body c1 c2 :
  Credits.isLength 10 1000 (trim (Credits.rawInput body)) = true →
  Credits.optional isISO8601 (Credits.saleTimestamp body) = true →
  let r1 := Credits.submit isISO8601 db now1 user body c1 in
  let r2 := Credits.submit isISO8601 r1.2 now2 user body c2 in
  ∃ id1 id2 row1 row2 reply1 reply2,
    r1.1 = Credits.Res 201 reply1 ∧ idOf r1.1 = Some id1
    ∧ r2.1 = Credits.Res 201 reply2 ∧ idOf r2.1 = Some id2
    ∧ id1 ≠ id2
    ∧ creditSubmission r2.2 !! id1 = Some row1
    ∧ creditSubmission r2.2 !! id2 = Some row2
    ∧ CreditSubmission.userId row1 = CreditSubmission.userId row2
    ∧ CreditSubmission.rawInput row1 = CreditSubmission.rawInput row2
    ∧ size (creditSubmission r2.2) = S (S (size (creditSubmission db))).
Proof.
  intros Hlen Hts. cbn zeta.
  destruct (submit_creates isISO8601 db now1 user body c1 Hlen Hts)
    as (row1 & Hr1 & Hdb1 & Hu1 & Ht1).
  destruct (submit_creates isISO8601 (Credits.submit isISO8601 db now1 user body c1).2
              now2 user body c2 Hlen Hts) as (row2 & Hr2 & Hdb2 & Hu2 & Ht2).
  set (id1 := fresh (dom (creditSubmission db))) in *.
  set (id2 := fresh (dom (creditSubmission (Credits.submit isISO8601 db now1 user body c1).2))) in *.
  assert (id1 ≠ id2) as Hne.
  { intros Heq. pose proof (fresh_lookup (creditSubmission
      (Credits.submit isISO8601 db now1 user body c1).2)) as Hfresh.
    fold id2 in Hfresh. rewrite Hdb1, <- Heq, lookup_insert_eq in Hfresh. done. }
  exists id1, id2, row1, row2. eexists _, _.
  rewrite Hr1, Hr2, Hdb2. cbn [idOf Credits.summary Credits.submission Credits.s_id].
  split_and!; try reflexivity; try done.
  - rewrite lookup_insert_ne by done. by rewrite Hdb1, lookup_insert_eq.
  - by rewrite lookup_insert_eq.
  - congruence.
  - congruence.
  - rewrite map_size_insert_None by apply fresh_lookup.
    rewrite Hdb1, map_size_insert_None by apply fresh_lookup. done.
Qed.

Lemma C3_every_submission_creates_a_claim_witness :
  let r1 := Credits.submit noTimestampCheck emptyDb 0 member yogaMat AIService.ServiceError in
  let r2 := Credits.submit noTimestampCheck r1.2 1000 member yogaMat AIService.ServiceError in
  ∃ id1 id2 row1 row2 reply1 reply2,
    r1.1 = Credits.Res 201 reply1 ∧ idOf r1.1 = Some id1
    ∧ r2.1 = Credits.Res 201 reply2 ∧ idOf r2.1 = Some id2
    ∧ id1 ≠ id2
    ∧ creditSubmission r2.2 !! id1 = Some row1
    ∧ creditSubmission r2.2 !! id2 = Some row2
    ∧ CreditSubmission.userId row1 = CreditSubmission.userId row2
    ∧ CreditSubmission.rawInput row1 = CreditSubmission.rawInput row2
    ∧ size (creditSubmission r2.2) = S (S (size (creditSubmission emptyDb))).
Proof.
  apply (C3_every_submission_creates_a_claim noTimestampCheck emptyDb 0 1000 member yogaMat
           AIService.ServiceError AIService.ServiceError); by vm_compute.
Defined.

(** ** Failure of the extraction services *)

(** The sibling voice service does ask for a follow-up in its fallback. *)
Lemma optimal_fallback_asks_follow_up text :
  ClaudeVoiceService.needsFollowUp (OptimalClaudeService.getFallbackResponse text) = true
  ∧ ClaudeVoiceService.followUpQuestions (OptimalClaudeService.getFallbackResponse text)
    = Some ["Could you tell me more about how you helped?"].
Proof. done. Qed.

(** C4, as stated, fails: when the call to the language model is rejected,
    the voice adapter answers with [needsFollowUp = false] and without any
    follow-up question. *)
Lemma C4_voice_fallback_asks_no_follow_up :
  let result := ClaudeVoiceService.processVoiceInput "I helped sell a yoga mat to Sarah"
                  voiceContext ClaudeVoiceService.CallFails in
  ClaudeVoiceService.needsFollowUp result ≠ true
  ∧ ClaudeVoiceService.followUpQuestions result = None.
Proof. cbn. split; done. Qed.

(** C4, amended: whenever the external service fails (the call is rejected,
    or its answer is empty or cannot be parsed), each adapter returns its
    fixed fallback, with category recommendation, confidence 0.3 and an
    estimated credit of 1, and hands no failure to its caller: the voice
    adapter's fallback speaks a request to tell the story again, and
    [/voice-process] answers 200 with it; [/submit] stores the claim, leaves
    it PENDING and in the review queue, and answers 201. *)
Theorem C4_failure_is_absorbed isISO8601 db now user body rawInput context completion
    transcriptText vctx reply vbody :
  (∀ d, completion ≠ AIService.Parsed d) →
  reply = ClaudeVoiceService.CallFails ∨ reply = ClaudeVoiceService.EmptyContent →
  Credits.isLength 10 1000 (trim (Credits.rawInput body)) = true →
  Credits.optional isISO8601 (Credits.saleTimestamp body) = true →
  Credits.isLength 5 1000 (trim (Credits.transcript vbody)) = true →
  ClaudeVoiceService.userId (Credits.context vbody) = Credits.id user →
  Credits.id user ≠ "" →
  let ai := AIService.processWithAI rawInput context completion in
  let voice := ClaudeVoiceService.processVoiceInput transcriptText vctx reply in
  (AIService.assistanceType ai = "recommendation"
   ∧ AIService.confidenceScore ai = dec 3 10
   ∧ AIService.estimatedCredit ai = ofZ 1
   ∧ AIService.processedData ai = AIService.FallbackProcessing rawInput)
  ∧ (ClaudeVoiceService.assistanceType voice = "recommendation"
     ∧ ClaudeVoiceService.confidenceScore voice = dec 3 10
     ∧ ClaudeVoiceService.estimatedCredit voice = ofZ 1
     ∧ ClaudeVoiceService.conversationalResponse voice
       = "I'm sorry, I had trouble understanding that. Could you tell me again about how you helped with a sale?"
     ∧ ClaudeVoiceService.shouldSpeak voice = true)
  ∧ queuedBy db (Credits.submit isISO8601 db now user body completion)
  ∧ ∃ result, Credits.voice_process user vbody reply = Credits.Res 200 result
              ∧ ClaudeVoiceService.confidenceScore result = dec 3 10.
Proof.
  intros Hfail Hreply Hlen Hts Hvlen Hctx Hid. cbn zeta.
  assert (∀ r c, AIService.processWithAI r c completion = AIService.fallback r) as Hai.
  { intros r c. destruct completion as [| | |d]; try reflexivity. by destruct (Hfail d). }
  assert (∀ t c, ClaudeVoiceService.processVoiceInput t c reply = ClaudeVoiceService.fallback t)
    as Hvoice.
  { intros t c. by destruct Hreply as [-> | ->]. }
  rewrite Hai, Hvoice. split_and!; try reflexivity.
  - rewrite submit_valid by done. cbn zeta. rewrite Hai.
    apply decided_outcome. by vm_compute.
  - unfold Credits.voice_process. rewrite Hvlen, Hctx, String.eqb_refl.
    replace (String.eqb (Credits.id user) "") with false
      by (symmetry; by apply String.eqb_neq).
    cbn [andb negb]. eexists. split; [reflexivity |]. by rewrite Hvoice.
Qed.

Lemma C4_failure_is_absorbed_witness :
  queuedBy emptyDb (Credits.submit noTimestampCheck emptyDb 0 member yogaMat AIService.ServiceError)
  ∧ ∃ result,
      Credits.voice_process member
        {| Credits.transcript := "I helped sell a yoga mat to Sarah";
           Credits.context := voiceContext |} ClaudeVoiceService.CallFails
      = Credits.Res 200 result
      ∧ ClaudeVoiceService.confidenceScore result = dec 3 10.
Proof.
  destruct (C4_failure_is_absorbed noTimestampCheck emptyDb 0 member yogaMat
              "I helped sell a yoga mat to Sarah around 2pm" memberContext
              AIService.ServiceError "I helped sell a yoga mat to Sarah" voiceContext
              ClaudeVoiceService.CallFails
              {| Credits.transcript := "I helped sell a yoga mat to Sarah";
                 Credits.context := voiceContext |})
    as (_ & _ & Hq & Hv); [by vm_compute | by left | by vm_compute.. |].
  by split.
Defined.

(** ** Review *)

(** A claim that is already APPROVED or REJECTED stops every review request
    before anything is written. *)
Lemma review_terminal_unchanged db now user id body submission :
  creditSubmission db !! id = Some submission →
  terminal (CreditSubmission.status submission) →
  ∃ message code, Credits.review db now user id body = (Credits.AppError message code, db).
Proof.
  intros Hsub Hterm. unfold Credits.review.
  destruct (negb _); [by eexists _, _ |].
  destruct (Credits.parseStatus _); [|by eexists _, _].
  destruct (negb _); [by eexists _, _ |].
  rewrite Hsub, <- terminal_cases, bool_decide_eq_true_2 by done. by eexists _, _.
Qed.

Lemma review_terminal_rejected db now user id body submission status :
  Credits.requireRole [ADMIN; STAFF] user = true →
  Credits.parseStatus (Credits.rb_status body) = Some status →
  Credits.optional (λ a, bool_decide (0 ≤ a)) (Credits.rb_approvedAmount body) = true →
  Credits.optional (Credits.isLength 0 500) (trim <$> Credits.rb_reviewNotes body) = true →
  creditSubmission db !! id = Some submission →
  terminal (CreditSubmission.status submission) →
  Credits.review db now user id body = (Credits.AppError "Submission already reviewed" 400, db).
Proof.
  intros Hrole Hst Hamt Hnotes Hsub Hterm. unfold Credits.review.
  rewrite Hrole, Hst, Hamt, Hnotes, Hsub. cbn [andb negb].
  by rewrite <- terminal_cases, bool_decide_eq_true_2.
Qed.

Lemma ledgerInv_at_most_one db id : ledgerInv db → (size (creditsOf db id) ≤ 1)%nat.
Proof.
  intros Hinv. specialize (Hinv id).
  destruct (creditSubmission db !! id) as [submission|].
  - case_bool_decide; [done | rewrite Hinv, map_size_empty; lia].
  - rewrite Hinv, map_size_empty; lia.
Qed.

(** C5: a review request on a claim that is APPROVED or REJECTED fails, with
    the error "Submission already reviewed" once the request itself is
    admissible; the database, hence the claim record and the ledger, is
    left as it was; and in every database the routes can build no claim has
    more than one ledger entry. *)
Theorem C5_terminal_claims_are_closed isISO8601 db id submission :
  reachable isISO8601 db →
  creditSubmission db !! id = Some submission →
  terminal (CreditSubmission.status submission) →
  (∀ now user body,
     ∃ message code, Credits.review db now user id body = (Credits.AppError message code, db))
  ∧ (∀ now user body status,
       Credits.requireRole [ADMIN; STAFF] user = true →
       Credits.parseStatus (Credits.rb_status body) = Some status →
       Credits.optional (λ a, bool_decide (0 ≤ a)) (Credits.rb_approvedAmount body) = true →
       Credits.optional (Credits.isLength 0 500) (trim <$> Credits.rb_reviewNotes body) = true →
       Credits.review db now user id body
       = (Credits.AppError "Submission already reviewed" 400, db))
  ∧ (∀ claim, (size (creditsOf db claim) ≤ 1)%nat)
  ∧ (∀ db', rtc (step isISO8601) db db' → ∀ claim, (size (creditsOf db' claim) ≤ 1)%nat).
Proof.
  intros Hreach Hsub Hterm. split_and!.
  - intros now user body. by eapply review_terminal_unchanged.
  - intros now user body status ????. by eapply review_terminal_rejected.
  - intros claim. by apply ledgerInv_at_most_one, (reachable_invariants isISO8601).
  - intros db' Hsteps claim. apply ledgerInv_at_most_one, (reachable_invariants isISO8601).
    unfold reachable in *. by etrans.
Qed.

Lemma C5_terminal_claims_are_closed_witness :
  let db := (Credits.submit_processed emptyDb 0 member (processed (ofZ 8) (dec 9 10))).2 in
  Credits.review db 5000 staff 0 approveAll
  = (Credits.AppError "Submission already reviewed" 400, db)
  ∧ (size (creditsOf db 0) ≤ 1)%nat.
Proof.
  cbn zeta.
  destruct (C5_terminal_claims_are_closed noTimestampCheck
              (Credits.submit_processed emptyDb 0 member (processed (ofZ 8) (dec 9 10))).2 0
              (newClaim "member-1" "I helped sell a yoga mat to Sarah around 2pm"
                 (FromClient (Some "I helped sell a yoga mat to Sarah around 2pm"))
                 "consultation" (dec 9 10) (ofZ 8) 0))
    as (_ & Hrej & Hone & _).
  - apply rtc_once, step_submit_processed.
  - by vm_compute.
  - left. by vm_compute.
  - split; [|apply Hone]. by apply (Hrej 5000%Z staff approveAll APPROVED).
Defined.



(** ** Balance *)






(** ** Stored confidence *)



(** ** More on the calculator of [processWithAI] *)

Lemma ofZ_le z1 z2 : (z1 ≤ z2)%Z → ofZ z1 ≤ ofZ z2.
Proof.
  intros H. unfold ofZ, Qcle. cbn [this Q2Qc]. rewrite !Qred_correct.
  unfold Qle. cbn. lia.
Qed.

Lemma Math_round_mono x y : x ≤ y → (Math_round x ≤ Math_round y)%Z.
Proof.
  intros H. unfold Math_round. apply Qfloor_resp_le.
  by apply (Qcplus_le_compat x y (dec 1 2) (dec 1 2)).
Qed.

Lemma Math_min_mono a b c : a ≤ b → Math_min a c ≤ Math_min b c.
Proof.
  intros H. unfold Math_min.
  destruct (bool_decide_reflect (a ≤ c)) as [Ha|Ha],
           (bool_decide_reflect (b ≤ c)) as [Hb|Hb]; try done; try apply Qcle_refl.
  apply Qcnot_le_lt in Ha. apply Qclt_le_weak. by eapply Qclt_le_trans.
Qed.



Lemma cents_mono a b : a ≤ b → ofZ (Math_round (a * ofZ 100)) / ofZ 100
                               ≤ ofZ (Math_round (b * ofZ 100)) / ofZ 100.
Proof.
  intros H. unfold Qcdiv. apply Qcmult_le_compat_r; [|by vm_compute].
  apply ofZ_le, Math_round_mono. apply Qcmult_le_compat_r; [done | by vm_compute].
Qed.

Lemma Qc_mult_nonneg a b : 0 ≤ a → 0 ≤ b → 0 ≤ a * b.
Proof.
  intros Ha Hb. replace 0 with (0 * b) by ring. by apply Qcmult_le_compat_r.
Qed.

Lemma rate_pos t : 0 < or_num (AIService.ASSISTANCE_TYPES_rate t) (dec 3 100).
Proof.
  unfold AIService.ASSISTANCE_TYPES_rate.
  repeat (destruct (String.eqb t _); [by vm_compute |]). by vm_compute.
Qed.

Lemma default_pos t : 0 < or_num (AIService.defaultCredits t) (ofZ 2).
Proof.
  unfold AIService.defaultCredits.
  repeat (destruct (String.eqb t _); [by vm_compute |]). by vm_compute.
Qed.

Lemma Math_max_ge_r a b : b ≤ Math_max a b.
Proof.
  unfold Math_max. case_bool_decide as H; [apply Qcle_refl |].
  apply Qclt_le_weak. by apply Qcnot_le_lt.
Qed.

(** The amount before confidence scaling is never negative. *)
Lemma base_nonneg t v :
  0 ≤ (if bool_decide (0 < v)
       then v * or_num (AIService.ASSISTANCE_TYPES_rate t) (dec 3 100)
       else or_num (AIService.defaultCredits t) (ofZ 2)).
Proof.
  case_bool_decide as Hv.
  - apply Qc_mult_nonneg; apply Qclt_le_weak; [done | apply rate_pos].
  - apply Qclt_le_weak, default_pos.
Qed.

Lemma estimatedCredit_parsed rawInput context d :
  AIService.estimatedCredit (AIService.processWithAI rawInput context (AIService.Parsed d))
  = let t := or_str (AIService.ai_assistanceType d) "recommendation" in
    let c := Math_max (dec 1 10)
               (Math_min 1 (or_num (AIService.ai_confidenceScore d) (dec 1 2))) in
    let v := Math_max 0 (or_num (AIService.estimatedSaleValue d) 0) in
    ofZ (Math_round
           (Math_min ((if bool_decide (0 < v)
                       then v * or_num (AIService.ASSISTANCE_TYPES_rate t) (dec 3 100)
                       else or_num (AIService.defaultCredits t) (ofZ 2)) * c)
                     (ofZ 50) * ofZ 100)) / ofZ 100.
Proof. reflexivity. Qed.

Lemma confidenceScore_parsed rawInput context d :
  AIService.confidenceScore (AIService.processWithAI rawInput context (AIService.Parsed d))
  = Math_max (dec 1 10) (Math_min 1 (or_num (AIService.ai_confidenceScore d) (dec 1 2))).
Proof. reflexivity. Qed.







(** X3: with the same category and sale value, a lower stored confidence
    never earns more. *)
Theorem lower_confidence_never_earns_more rawInput context d1 d2 :
  AIService.ai_assistanceType d1 = AIService.ai_assistanceType d2 →
  AIService.estimatedSaleValue d1 = AIService.estimatedSaleValue d2 →
  AIService.confidenceScore (AIService.processWithAI rawInput context (AIService.Parsed d1))
  ≤ AIService.confidenceScore (AIService.processWithAI rawInput context (AIService.Parsed d2)) →
  AIService.estimatedCredit (AIService.processWithAI rawInput context (AIService.Parsed d1))
  ≤ AIService.estimatedCredit (AIService.processWithAI rawInput context (AIService.Parsed d2)).
Proof.
  intros Ht Hv. rewrite !confidenceScore_parsed, !estimatedCredit_parsed.
  cbn zeta. rewrite Ht, Hv. intros Hc.
  apply cents_mono, Math_min_mono.
  set (base := if bool_decide (0 < _) then _ else _).
  rewrite !(Qcmult_comm base).
  apply Qcmult_le_compat_r; [done | apply base_nonneg].
Qed.

Lemma lower_confidence_never_earns_more_witness :
  AIService.estimatedCredit
    (AIService.processWithAI "I explained the oils" memberContext
       (AIService.Parsed (answer (Some "consultation") (Some (dec 4 10)) (Some (ofZ 80)))))
  ≤ AIService.estimatedCredit
      (AIService.processWithAI "I explained the oils" memberContext
         (AIService.Parsed (answer (Some "consultation") (Some (dec 9 10)) (Some (ofZ 80))))).
Proof.
  apply (lower_confidence_never_earns_more "I explained the oils" memberContext
           (answer (Some "consultation") (Some (dec 4 10)) (Some (ofZ 80)))
           (answer (Some "consultation") (Some (dec 9 10)) (Some (ofZ 80))));
    by vm_compute.
Defined.

(** X4: a sale value that is zero or negative is treated as unknown: the
    estimate is the one of the same answer without a sale value, built on
    the default amount of the category. *)
Theorem nonpositive_sale_value_is_unknown rawInput context d v :
  AIService.estimatedSaleValue d = Some v → v ≤ 0 →
  AIService.estimatedCredit (AIService.processWithAI rawInput context (AIService.Parsed d))
  = AIService.estimatedCredit
      (AIService.processWithAI rawInput context (AIService.Parsed (withSaleValue d None))).
Proof.
  intros Hv Hle. rewrite !estimatedCredit_parsed.
  cbn [withSaleValue AIService.ai_assistanceType AIService.ai_confidenceScore
       AIService.estimatedSaleValue].
  rewrite Hv.
  assert (Math_max 0 (or_num (Some v) 0) = Math_max 0 (or_num None 0)) as ->; [|done].
  destruct (decide (v = 0)) as [->|Hz]; [done |].
  unfold or_num. rewrite (bool_decide_eq_false_2 (v = 0)) by done. unfold Math_max.
  rewrite (bool_decide_eq_false_2 (0 ≤ v)); [by rewrite bool_decide_eq_true_2 |].
  intros Hge. apply Hz. by apply Qcle_antisym.
Qed.

Lemma nonpositive_sale_value_is_unknown_witness :
  AIService.estimatedCredit
    (AIService.processWithAI "I solved a return" memberContext
       (AIService.Parsed (answer (Some "problem_solving") (Some (dec 9 10)) (Some (ofZ (-40))))))
  = AIService.estimatedCredit
      (AIService.processWithAI "I solved a return" memberContext
         (AIService.Parsed
            (withSaleValue (answer (Some "problem_solving") (Some (dec 9 10)) (Some (ofZ (-40))))
                           None))).
Proof.
  apply (nonpositive_sale_value_is_unknown "I solved a return" memberContext
           (answer (Some "problem_solving") (Some (dec 9 10)) (Some (ofZ (-40))))
           (ofZ (-40))); by vm_compute.
Defined.

(** ** The submission routes, request by request *)





(** ** Review, request by request *)

Lemma open_not_terminal submission :
  isOpen submission →
  bool_decide (CreditSubmission.status submission ≠ PENDING)
  && bool_decide (CreditSubmission.status submission ≠ UNDER_REVIEW) = false.
Proof. by intros [-> | ->]. Qed.

(** A closed review request is admissible by computation. *)
Ltac admissible_now :=
  unfold admissible; split_and!; [by vm_compute | by eexists | by vm_compute | by vm_compute].

(** What an admissible review of an open claim does. *)
Lemma review_open db now user id body submission status :
  admissible user body →
  Credits.parseStatus (Credits.rb_status body) = Some status →
  creditSubmission db !! id = Some submission →
  isOpen submission →
  Credits.review db now user id body
  = let updated := reviewed submission status (Credits.rb_approvedAmount body)
                     (Credits.id user) (trim <$> Credits.rb_reviewNotes body) now in
    let db1 := creditSubmission_update db id updated in
    let reply := {| Credits.updatedSubmission := updated;
                    Credits.message := "Submission " +:+ toLowerCase (Credits.rb_status body)
                                       +:+ " successfully" |} in
    if bool_decide (status = APPROVED)
    then match CreditSubmission.approvedAmount updated with
         | None => (Credits.PrismaError "Argument amount must not be null", db1)
         | Some amount =>
             (Credits.Res 200 reply,
              storeCredit_create db1
                (earned (CreditSubmission.userId submission) id amount
                   ("Credit for " +:+ default "null" (CreditSubmission.assistanceType submission)
                    +:+ " (reviewed)") now))
         end
    else (Credits.Res 200 reply, db1).
Proof.
  intros (Hrole & _ & Hamt & Hnotes) Hst Hsub Hopen. unfold Credits.review.
  rewrite Hrole, Hst, Hamt, Hnotes, Hsub, (open_not_terminal _ Hopen).
  reflexivity.
Qed.


(** X8: rejecting an open claim sets it to REJECTED with the reviewer and
    the time recorded, writes no ledger entry, and closes the claim: every
    later review request on it is turned down and changes nothing. *)
Theorem reject_closes_without_entry db now user id body submission :
  admissible user body →
  Credits.rb_status body = "REJECTED" →
  creditSubmission db !! id = Some submission →
  isOpen submission →
  let r := Credits.review db now user id body in
  ∃ reply,
    r.1 = Credits.Res 200 reply
    ∧ creditSubmission r.2 = <[id := Credits.updatedSubmission reply]> (creditSubmission db)
    ∧ CreditSubmission.status (Credits.updatedSubmission reply) = REJECTED
    ∧ CreditSubmission.reviewedBy (Credits.updatedSubmission reply) = Some (Credits.id user)
    ∧ CreditSubmission.reviewedAt (Credits.updatedSubmission reply) = Some now
    ∧ storeCredit r.2 = storeCredit db
    ∧ ∀ now' user' body',
        ∃ message code,
          Credits.review r.2 now' user' id body' = (Credits.AppError message code, r.2).
Proof.
  intros Hadm Hst Hsub Hopen. cbn zeta.
  rewrite (review_open db now user id body submission REJECTED) by (done || by rewrite Hst).
  cbn zeta. rewrite bool_decide_eq_false_2 by done. cbn [fst snd].
  eexists. split_and!; try reflexivity.
  intros now' user' body'. eapply review_terminal_unchanged.
  - unfold creditSubmission_update. cbn [creditSubmission]. apply lookup_insert_eq.
  - by right.
Qed.

Lemma reject_closes_without_entry_witness :
  let r := Credits.review onePending 5000 staff 0 (rejectWith (Some "insufficient detail")) in
  ∃ reply,
    r.1 = Credits.Res 200 reply
    ∧ CreditSubmission.status (Credits.updatedSubmission reply) = REJECTED
    ∧ storeCredit r.2 = storeCredit onePending.
Proof.
  cbn zeta.
  destruct (reject_closes_without_entry onePending 5000 staff 0
              (rejectWith (Some "insufficient detail"))
              (newClaim "member-1" "I helped sell a yoga mat to Sarah around 2pm"
                 (FromClient (Some "I helped sell a yoga mat to Sarah around 2pm"))
                 "consultation" (dec 5 10) (ofZ 8) 0))
    as (reply & Hr & _ & Hst & _ & _ & Hledger & _).
  - admissible_now.
  - reflexivity.
  - by vm_compute.
  - left. by vm_compute.
  - by exists reply.
Defined.




Lemma review_frame_facts db now user id body :
  let r := Credits.review db now user id body in
  (∀ id', id' ≠ id → creditSubmission r.2 !! id' = creditSubmission db !! id')
  ∧ (∀ claim, creditSubmission db !! id = Some claim →
       ∃ claim',
         creditSubmission r.2 !! id = Some claim'
         ∧ CreditSubmission.userId claim' = CreditSubmission.userId claim
         ∧ CreditSubmission.rawInput claim' = CreditSubmission.rawInput claim
         ∧ CreditSubmission.processedData claim' = CreditSubmission.processedData claim
         ∧ CreditSubmission.assistanceType claim' = CreditSubmission.assistanceType claim
         ∧ CreditSubmission.confidenceScore claim' = CreditSubmission.confidenceScore claim
         ∧ CreditSubmission.claimedAmount claim' = CreditSubmission.claimedAmount claim
         ∧ CreditSubmission.submittedAt claim' = CreditSubmission.submittedAt claim
         ∧ (Credits.rb_reviewNotes body = None →
            CreditSubmission.reviewNotes claim' = CreditSubmission.reviewNotes claim))
  ∧ (∀ id', creditSubmission db !! id' = None → creditSubmission r.2 !! id' = None).
Proof.
  cbn zeta. unfold Credits.review.
  destruct (negb _); [by eauto 20 |].
  destruct (Credits.parseStatus _); [|by eauto 20].
  destruct (negb _); [by eauto 20 |].
  destruct (creditSubmission db !! id) as [submission|] eqn:Hsub; [|by eauto 20].
  destruct (_ && _); [rewrite <- Hsub; by eauto 20 |].
  set (updated := CreditSubmission.Build_t _ _ _ _ _ _ _ _ _ _ _ _ _).
  assert (∀ d, creditSubmission d = <[id := updated]> (creditSubmission db) →
    (∀ id', id' ≠ id → creditSubmission d !! id' = creditSubmission db !! id')
    ∧ (∀ claim, Some submission = Some claim →
         ∃ claim',
           creditSubmission d !! id = Some claim'
           ∧ CreditSubmission.userId claim' = CreditSubmission.userId claim
           ∧ CreditSubmission.rawInput claim' = CreditSubmission.rawInput claim
           ∧ CreditSubmission.processedData claim' = CreditSubmission.processedData claim
           ∧ CreditSubmission.assistanceType claim' = CreditSubmission.assistanceType claim
           ∧ CreditSubmission.confidenceScore claim' = CreditSubmission.confidenceScore claim
           ∧ CreditSubmission.claimedAmount claim' = CreditSubmission.claimedAmount claim
           ∧ CreditSubmission.submittedAt claim' = CreditSubmission.submittedAt claim
           ∧ (Credits.rb_reviewNotes body = None →
              CreditSubmission.reviewNotes claim' = CreditSubmission.reviewNotes claim))
    ∧ (∀ id', creditSubmission db !! id' = None → creditSubmission d !! id' = None)) as Hframe.
  { intros d ->. split_and!.
    - intros id' Hne. by rewrite lookup_insert_ne.
    - intros claim [= <-]. exists updated. rewrite lookup_insert_eq.
      split_and!; try reflexivity. intros Hnone. subst updated. by rewrite Hnone.
    - intros id' Hnone. rewrite lookup_insert_ne; [done |]. intros <-. congruence. }
  case_bool_decide; [|by apply Hframe].
  destruct (or_opt _ _); by apply Hframe.
Qed.

(** X11: a review touches no claim but the one it names, and of that one it
    never changes the member, the text, the category, the confidence, the
    claimed amount or the time of submission; notes already on the claim
    stay when the request brings none. *)
Theorem review_frame db now user id body :
  let r := Credits.review db now user id body in
  (∀ id', id' ≠ id → creditSubmission r.2 !! id' = creditSubmission db !! id')
  ∧ (∀ claim, creditSubmission db !! id = Some claim →
       ∃ claim',
         creditSubmission r.2 !! id = Some claim'
         ∧ CreditSubmission.userId claim' = CreditSubmission.userId claim
         ∧ CreditSubmission.rawInput claim' = CreditSubmission.rawInput claim
         ∧ CreditSubmission.processedData claim' = CreditSubmission.processedData claim
         ∧ CreditSubmission.assistanceType claim' = CreditSubmission.assistanceType claim
         ∧ CreditSubmission.confidenceScore claim' = CreditSubmission.confidenceScore claim
         ∧ CreditSubmission.claimedAmount claim' = CreditSubmission.claimedAmount claim
         ∧ CreditSubmission.submittedAt claim' = CreditSubmission.submittedAt claim
         ∧ (Credits.rb_reviewNotes body = None →
            CreditSubmission.reviewNotes claim' = CreditSubmission.reviewNotes claim))
  ∧ (∀ id', creditSubmission db !! id' = None → creditSubmission r.2 !! id' = None).
Proof. apply review_frame_facts. Qed.




(** ** Soundness of the tables in every reachable database *)














(** ** The figures of the balance route *)















(** ** The listings *)

Global Instance olderFirst_total : Total Credits.olderFirst.
Proof. intros a b. unfold Credits.olderFirst. lia. Qed.

Global Instance olderFirst_trans : Transitive Credits.olderFirst.
Proof. intros a b c. unfold Credits.olderFirst. lia. Qed.

Global Instance latestFirst_total : Total Credits.latestFirst.
Proof. intros a b. unfold Credits.latestFirst. lia. Qed.

Global Instance latestFirst_trans : Transitive Credits.latestFirst.
Proof. intros a b c. unfold Credits.latestFirst. lia. Qed.

Lemma StronglySorted_sublist {A} (R : relation A) (k l : list A) :
  k `sublist_of` l → StronglySorted R l → StronglySorted R k.
Proof.
  induction 1 as [|x k l Hkl IH|x k l Hkl IH]; intros Hl.
  - constructor.
  - apply StronglySorted_inv in Hl as [Hl Hx]. constructor; [by apply IH |].
    apply Forall_forall. intros y Hy. eapply Forall_forall in Hx; [done |].
    by eapply elem_of_sublist.
  - apply StronglySorted_inv in Hl as [Hl _]. by apply IH.
Qed.

Lemma pageOf_sublist {A} page limit (l : list A) : pageOf page limit l `sublist_of` l.
Proof. unfold pageOf. etrans; [apply sublist_take | apply sublist_drop]. Qed.

Lemma pageOf_length {A} page limit (l : list A) : (length (pageOf page limit l) ≤ limit)%nat.
Proof. unfold pageOf. rewrite length_take. lia. Qed.

(** X18: a page of the review queue holds open claims only (PENDING or
    UNDER_REVIEW, as they are in the database), oldest submission first, at
    most [limit] of them, where [limit] is 20 unless the request asks for
    1 to 50; [total] counts the whole queue. *)
Theorem admin_pending_page db user qpage qlimit reply :
  Credits.admin_pending db user qpage qlimit = Credits.Res 200 reply →
  Credits.limit reply = default 20%nat qlimit
  ∧ Credits.page reply = default 1%nat qpage
  ∧ (1 ≤ Credits.limit reply ≤ 50)%nat
  ∧ (1 ≤ Credits.page reply)%nat
  ∧ (length (Credits.rows reply) ≤ Credits.limit reply)%nat
  ∧ Credits.total reply = length (Credits.pendingQueue db)
  ∧ Credits.rows reply
    = pageOf (Credits.page reply) (Credits.limit reply) (Credits.pendingQueue db)
  ∧ (∀ id claim, (id, claim) ∈ Credits.rows reply →
                 creditSubmission db !! id = Some claim ∧ isOpen claim)
  ∧ StronglySorted Credits.olderFirst (Credits.rows reply).
Proof.
  unfold Credits.admin_pending. destruct (negb _); [done |].
  destruct (Credits.optional _ qpage) eqn:Hpage; [|done].
  destruct (Credits.optional _ qlimit) eqn:Hlimit; [|done].
  cbn [andb negb]. intros [= <-]. cbn [Credits.rows Credits.page Credits.limit Credits.total].
  fold (pageOf (default 1%nat qpage) (default 20%nat qlimit) (Credits.pendingQueue db)).
  split_and!; try done.
  - destruct qlimit as [n|]; cbn in *; [|lia].
    unfold Credits.isInt in Hlimit.
    apply andb_true_iff in Hlimit as [?%bool_decide_eq_true ?%bool_decide_eq_true]. lia.
  - destruct qlimit as [n|]; cbn in *; [|lia].
    unfold Credits.isInt in Hlimit.
    apply andb_true_iff in Hlimit as [?%bool_decide_eq_true ?%bool_decide_eq_true]. lia.
  - destruct qpage as [n|]; cbn in *; [|lia].
    unfold Credits.isInt in Hpage.
    apply andb_true_iff in Hpage as [?%bool_decide_eq_true _]. lia.
  - apply pageOf_length.
  - intros id claim Hin. eapply elem_of_sublist in Hin; [|apply pageOf_sublist].
    by apply pendingQueue_elem in Hin.
  - eapply StronglySorted_sublist; [apply pageOf_sublist |].
    apply StronglySorted_merge_sort; apply _.
Qed.

Lemma admin_pending_page_witness :
  ∃ reply, Credits.admin_pending onePending staff None None = Credits.Res 200 reply
           ∧ Credits.limit reply = 20%nat
           ∧ Credits.total reply = length (Credits.pendingQueue onePending).
Proof.
  eexists. split; [reflexivity |].
  destruct (admin_pending_page onePending staff None None _ eq_refl)
    as (Hlimit & _ & _ & _ & _ & Htotal & _).
  by split.
Defined.





(** ** The member's own listing *)

Lemma ownClaims_elem db userId status id claim :
  (id, claim) ∈ Credits.ownClaims db userId status
  ↔ creditSubmission db !! id = Some claim
    ∧ CreditSubmission.userId claim = userId
    ∧ ∀ st, status = Some st → CreditSubmission.status claim = st.
Proof.
  unfold Credits.ownClaims. rewrite merge_sort_Permutation.
  rewrite list_elem_of_filter, elem_of_map_to_list. unfold Credits.ownWhere. cbn [snd].
  rewrite andb_true_iff, bool_decide_eq_true.
  destruct status as [st|].
  - rewrite bool_decide_eq_true. split.
    + intros [[? ?] ?]. split_and!; try done. by intros ? [= <-].
    + intros (? & ? & Hst). split_and!; try done. by apply Hst.
  - split; [intros [[? _] ?] | intros (? & ? & _)]; by split_and!.
Qed.

Lemma parseStatusFilter_name name st :
  Credits.parseStatusFilter name = Some st →
  name ∈ ["PENDING"; "APPROVED"; "REJECTED"; "UNDER_REVIEW"].
Proof.
  unfold Credits.parseStatusFilter. rewrite !elem_of_cons.
  destruct (String.eqb_spec name "PENDING"); [tauto |].
  destruct (String.eqb_spec name "APPROVED"); [tauto |].
  destruct (String.eqb_spec name "REJECTED"); [tauto |].
  destruct (String.eqb_spec name "UNDER_REVIEW"); [tauto | done].
Qed.

(** X20: a page of [/submissions] shows claims of the caller only, as they
    are in the database and narrowed to the status asked for, latest
    submission first, at most [limit] ≤ 50 of them; a status outside the four
    names never gets this far. *)
Theorem submissions_lists_own_claims db user qpage qlimit qstatus reply :
  Credits.submissions db user qpage qlimit qstatus = Credits.Res 200 reply →
  (length (Credits.rows reply) ≤ Credits.limit reply ≤ 50)%nat
  ∧ (∀ name, qstatus = Some name →
             name ∈ ["PENDING"; "APPROVED"; "REJECTED"; "UNDER_REVIEW"])
  ∧ Credits.total reply
    = length (Credits.ownClaims db (Credits.id user) (qstatus ≫= Credits.parseStatusFilter))
  ∧ (∀ row, row ∈ Credits.rows reply →
       ∃ claim, creditSubmission db !! Credits.o_id row = Some claim
                ∧ CreditSubmission.userId claim = Credits.id user
                ∧ row = Credits.selectOwn (Credits.o_id row, claim)
                ∧ ∀ name, qstatus = Some name →
                          Credits.parseStatusFilter name = Some (Credits.o_status row))
  ∧ StronglySorted latestFirstRow (Credits.rows reply).
Proof.
  unfold Credits.submissions.
  destruct (Credits.optional _ qpage) eqn:Hpage; [|done].
  destruct (Credits.optional _ qlimit) eqn:Hlimit; [|done].
  destruct (Credits.optional _ qstatus) eqn:Hstatus; [|done].
  cbn [andb negb]. intros [= <-]. cbn [Credits.rows Credits.page Credits.limit Credits.total].
  set (found := Credits.ownClaims db (Credits.id user) (qstatus ≫= Credits.parseStatusFilter)).
  fold (pageOf (default 1%nat qpage) (default 20%nat qlimit) found).
  split_and!; try done.
  - rewrite length_fmap. apply pageOf_length.
  - destruct qlimit as [n|]; cbn in *; [|lia].
    unfold Credits.isInt in Hlimit.
    apply andb_true_iff in Hlimit as [?%bool_decide_eq_true ?%bool_decide_eq_true]. lia.
  - intros name ->. cbn in Hstatus. apply bool_decide_eq_true in Hstatus as [st Hst].
    by eapply parseStatusFilter_name.
  - intros row ([id claim] & -> & Hin)%list_elem_of_fmap.
    eapply elem_of_sublist in Hin; [|apply pageOf_sublist].
    apply ownClaims_elem in Hin as (Hclaim & Huser & Hst).
    exists claim. cbn [Credits.selectOwn Credits.o_id Credits.o_status fst snd].
    split_and!; try done.
    intros name ->. cbn in Hstatus, Hst.
    apply bool_decide_eq_true in Hstatus as [st Hname]. rewrite Hname in Hst |- *.
    by rewrite (Hst st).
  - apply (StronglySorted_fmap Credits.selectOwn Credits.latestFirst); [by intros [??] [??] |].
    eapply StronglySorted_sublist; [apply pageOf_sublist |].
    apply StronglySorted_merge_sort; apply _.
Qed.

Lemma submissions_lists_own_claims_witness :
  ∃ reply, Credits.submissions onePending member None None (Some "PENDING")
           = Credits.Res 200 reply
           ∧ (length (Credits.rows reply) ≤ Credits.limit reply ≤ 50)%nat.
Proof.
  eexists. split; [by vm_compute |].
  match goal with
  | |- (length (Credits.rows ?reply) ≤ _ ≤ _)%nat =>
      destruct (submissions_lists_own_claims onePending member None None
                  (Some "PENDING") reply) as [Hpage _]; [by vm_compute | exact Hpage]
  end.
Defined.

(** ** The voice flow: from the recording to the claim *)

Lemma voice_analysis_table response original :
  analysisFigures (ClaudeVoiceService.extractStructuredData response original) ∈ voiceTable.
Proof.
  unfold analysisFigures, ClaudeVoiceService.extractStructuredData, voiceTable.
  rewrite !elem_of_cons.
  destruct (includes (toLowerCase response) "consultation" || _ || _); [by left |].
  destruct (includes (toLowerCase response) "problem" || _ || _); [by right; left |].
  destruct (includes (toLowerCase response) "helped" || _ || _); [by right; right; left |].
  by right; right; right; left.
Qed.

Lemma voice_failure t ctx reply :
  reply = ClaudeVoiceService.CallFails ∨ reply = ClaudeVoiceService.EmptyContent →
  ClaudeVoiceService.processVoiceInput t ctx reply = ClaudeVoiceService.fallback t.
Proof. by intros [-> | ->]. Qed.

Lemma voice_figures t ctx reply :
  figures (ClaudeVoiceService.processVoiceInput t ctx reply) ∈ voiceFailure :: voiceTable.
Proof.
  rewrite elem_of_cons.
  destruct reply as [| |text|]; [by left | by left | right..];
    apply (voice_analysis_table _ t).
Qed.

Lemma voice_process_200 user body reply code result :
  Credits.voice_process user body reply = Credits.Res code result →
  code = 200%nat
  ∧ result = ClaudeVoiceService.processVoiceInput (trim (Credits.transcript body))
               (Credits.context body) reply
  ∧ ClaudeVoiceService.userId (Credits.context body) = Credits.id user
  ∧ (5 ≤ String.length (trim (Credits.transcript body)) ≤ 1000)%nat.
Proof.
  unfold Credits.voice_process.
  destruct (Credits.isLength 5 1000 _) eqn:Hlen; [|done].
  destruct (negb (String.eqb _ "")); [|done]. cbn [andb negb].
  destruct (String.eqb_spec (ClaudeVoiceService.userId (Credits.context body))
              (Credits.id user)) as [Huser|]; [|done].
  cbn [negb]. intros [= <- <-]. split_and!; try done;
    unfold Credits.isLength in Hlen;
    apply andb_true_iff in Hlen as [?%bool_decide_eq_true ?%bool_decide_eq_true]; lia.
Qed.

Ltac below_threshold :=
  let H := fresh in
  intros H; exfalso; apply Qcle_not_lt in H; apply H; by vm_compute.

Ltac not_listed :=
  let H := fresh in
  intros H; exfalso;
  repeat (destruct H as [H|H]; [discriminate H |]); by apply elem_of_nil in H.

Lemma figures_facts x :
  x ∈ voiceFailure :: voiceTable →
  Credits.isAssistanceType x.1.1 = true
  ∧ 0 ≤ x.1.2 ∧ 0 ≤ x.2 ∧ x.2 ≤ 1
  ∧ (dec 8 10 ≤ x.2 ↔ x.1.1 ∈ ["consultation"; "problem_solving"])
  ∧ (x.2 < dec 8 10 ↔ x.1.1 ∈ ["assistance"; "recommendation"]).
Proof.
  unfold voiceFailure, voiceTable. rewrite !elem_of_cons, elem_of_nil.
  intros [-> | [-> | [-> | [-> | [-> | []]]]]]; cbn [fst snd];
    (split_and!; [by vm_compute.. | |]).
  - split; [below_threshold | not_listed].
  - split; [intros _; auto | intros _; by vm_compute].
  - split; [intros _; auto | intros _; by vm_compute].
  - split; [intros H; exfalso; by vm_compute in H | not_listed].
  - split; [intros _; auto | intros _; by vm_compute].
  - split; [intros H; exfalso; by vm_compute in H | not_listed].
  - split; [below_threshold | not_listed].
  - split; [intros _; auto | intros _; by vm_compute].
  - split; [below_threshold | not_listed].
  - split; [intros _; auto | intros _; by vm_compute].
Qed.

(** X21: [/voice-process] has three outcomes and none of them is a 500: a
    400 when the trimmed transcript is not 5 to 1000 characters long or the
    context names no user, a 403 when it names another user than the caller,
    and otherwise a 200 whose figures are one of the four rows of the
    keyword table or those of the failure object. *)
Theorem voice_process_outcomes user body reply :
  let r := Credits.voice_process user body reply in
  r = Credits.AppError "Validation failed" 400
  ∨ (r = Credits.AppError "User context mismatch" 403
     ∧ ClaudeVoiceService.userId (Credits.context body) ≠ Credits.id user)
  ∨ (∃ result, r = Credits.Res 200 result
       ∧ ClaudeVoiceService.userId (Credits.context body) = Credits.id user
       ∧ (5 ≤ String.length (trim (Credits.transcript body)) ≤ 1000)%nat
       ∧ ClaudeVoiceService.shouldSpeak result = true
       ∧ figures result ∈ voiceFailure :: voiceTable).
Proof.
  cbn zeta. destruct (Credits.voice_process user body reply) as [code result|msg code|msg] eqn:Hr.
  - right; right. apply voice_process_200 in Hr as (-> & -> & Huser & Hlen).
    eexists. do 3 (split; [done |]). split; [by destruct reply | apply voice_figures].
  - revert Hr. unfold Credits.voice_process.
    destruct (negb (_ && _)); [intros [= <- <-]; by left |].
    destruct (String.eqb_spec (ClaudeVoiceService.userId (Credits.context body))
                (Credits.id user)) as [|Hne]; [done |].
    cbn [negb]. intros [= <- <-]. by right; left.
  - revert Hr. unfold Credits.voice_process. by repeat case_match.
Qed.

(** X22: a voice result that asks no follow-up becomes the screen's
    submission, and submitting it always stores a claim of the caller for the
    estimate of the result; the claim is approved and paid on the spot
    exactly when the category is consultation or problem_solving, and queued
    exactly when it is assistance or recommendation. *)
Theorem voice_claim_paid_by_keyword db now user body reply cur result :
  Credits.voice_process user body reply = Credits.Res 200 result →
  ClaudeVoiceService.needsFollowUp result = false →
  ∃ r, Client.submitClaim db now user (recorded user body reply cur) = Some r
       ∧ (autoApprovedBy db r
          ↔ ClaudeVoiceService.assistanceType result ∈ ["consultation"; "problem_solving"])
       ∧ (queuedBy db r
          ↔ ClaudeVoiceService.assistanceType result ∈ ["assistance"; "recommendation"])
       ∧ ∃ row, creditSubmission r.2 !! fresh (dom (creditSubmission db)) = Some row
                ∧ CreditSubmission.userId row = Credits.id user
                ∧ CreditSubmission.claimedAmount row
                  = Some (ClaudeVoiceService.estimatedCredit result).
Proof.
  intros Hr Hfollow. unfold recorded. rewrite Hr. cbn [Client.processVoiceSubmission].
  unfold Client.stopRecording. rewrite Hfollow. cbn [negb].
  apply voice_process_200 in Hr as (_ & Hresult & _ & _).
  pose proof (voice_figures (trim (Credits.transcript body)) (Credits.context body) reply)
    as Hfig.
  rewrite <- Hresult in Hfig. apply figures_facts in Hfig. unfold figures in Hfig.
  cbn [fst snd] in Hfig. destruct Hfig as (Ht & He & Hc0 & Hc1 & Hyes & Hno).
  unfold Client.submitClaim, Client.submitProcessedClaim.
  cbn [fmap option_fmap option_map compose Client.processedData Client.assistanceType
       Client.estimatedCredit Client.confidence].
  rewrite submit_processed_valid by done. cbn zeta.
  eexists. split; [reflexivity |].
  match goal with
  | |- context [decided db ?row ?est ?descr now] =>
      pose proof (decided_outcome db (Credits.id user)
                    (or_str (Credits.originalTranscript
                               (Client.toJson (ClaudeVoiceService.processedData result)))
                            "Voice submission")
                    (Client.toJson (ClaudeVoiceService.processedData result))
                    (ClaudeVoiceService.assistanceType result)
                    (ClaudeVoiceService.confidenceScore result)
                    (ClaudeVoiceService.estimatedCredit result) descr now 201)
        as [Happroved Hqueued]
  end.
  cbn zeta in Happroved, Hqueued.
  split_and!.
  - by rewrite Happroved.
  - by rewrite Hqueued.
  - cbn [snd]. rewrite decided_creditSubmission, lookup_insert_eq. by eexists.
Qed.

Lemma voice_claim_paid_by_keyword_witness :
  ∃ r, Client.submitClaim emptyDb 0 member
         (recorded member voiceBody
            (ClaudeVoiceService.TextBlock "You explained the stones well.") None) = Some r
       ∧ autoApprovedBy emptyDb r.
Proof.
  destruct (voice_claim_paid_by_keyword emptyDb 0 member voiceBody
              (ClaudeVoiceService.TextBlock "You explained the stones well.") None
              (ClaudeVoiceService.processVoiceInput (trim (Credits.transcript voiceBody))
                 (Credits.context voiceBody)
                 (ClaudeVoiceService.TextBlock "You explained the stones well.")))
    as (r & Hr & Happroved & _); [by vm_compute | by vm_compute |].
  exists r. split; [exact Hr |]. apply Happroved. rewrite !elem_of_cons. by left.
Defined.

(** X23: when the call to Claude fails, the server still answers 200 with
    the failure object, which asks no follow-up; the screen takes it as the
    submission, and submitting it stores a PENDING claim of $1 for a
    recommendation under the text "Voice submission", whatever was said, and
    leaves the ledger as it was. *)
Theorem failed_voice_call_leaves_a_claim db now user body reply cur result :
  Credits.voice_process user body reply = Credits.Res 200 result →
  reply = ClaudeVoiceService.CallFails ∨ reply = ClaudeVoiceService.EmptyContent →
  let row := newClaim (Credits.id user) "Voice submission" (FromClient None)
               "recommendation" (dec 3 10) (ofZ 1) now in
  Client.submitClaim db now user (recorded user body reply cur)
  = Some (Credits.Res 201 (Credits.summary (fresh (dom (creditSubmission db))) row),
          {| creditSubmission :=
               <[fresh (dom (creditSubmission db)) := row]> (creditSubmission db);
             storeCredit := storeCredit db |})
  ∧ CreditSubmission.status row = PENDING.
Proof.
  intros Hr Hfail. cbn zeta. unfold recorded. rewrite Hr. cbn [Client.processVoiceSubmission].
  apply voice_process_200 in Hr as (_ & -> & _ & _).
  rewrite (voice_failure _ _ _ Hfail).
  unfold Client.stopRecording, ClaudeVoiceService.fallback, Client.submitClaim,
    Client.submitProcessedClaim.
  cbn [negb ClaudeVoiceService.needsFollowUp ClaudeVoiceService.assistanceType
       ClaudeVoiceService.estimatedCredit ClaudeVoiceService.confidenceScore
       ClaudeVoiceService.processedData
       fmap option_fmap option_map compose Client.processedData Client.assistanceType
       Client.estimatedCredit Client.confidence Client.toJson].
  rewrite submit_processed_valid by (by vm_compute). cbn zeta.
  cbn [Credits.originalTranscript or_str].
  rewrite newClaim_status, threshold_below by (by vm_compute).
  split; [|done]. unfold decided, creditSubmission_create.
  by rewrite newClaim_status, threshold_below by (by vm_compute).
Qed.

Lemma failed_voice_call_leaves_a_claim_witness :
  statusOf <$> (fst <$> Client.submitClaim emptyDb 0 member
                          (recorded member voiceBody ClaudeVoiceService.CallFails None))
  = Some (Some PENDING).
Proof.
  destruct (failed_voice_call_leaves_a_claim emptyDb 0 member voiceBody
              ClaudeVoiceService.CallFails None
              (ClaudeVoiceService.fallback (trim (Credits.transcript voiceBody))))
    as [-> _]; [by vm_compute | by left |].
  reflexivity.
Defined.

(** X24: the screen keeps the submission it had, and so has nothing new to
    send, whenever the request is refused or the answer asks a follow-up:
    the object the client puts in place of a refused request asks one
    itself. *)
Theorem no_submission_without_a_final_answer user body reply cur :
  (∀ result, Credits.voice_process user body reply = Credits.Res 200 result →
             ClaudeVoiceService.needsFollowUp result = true) →
  recorded user body reply cur = cur.
Proof.
  intros Hfollow. unfold recorded.
  destruct (Credits.voice_process user body reply) as [code result|msg code|msg] eqn:Hr;
    cbn [Client.processVoiceSubmission]; [|done..].
  pose proof (voice_process_200 _ _ _ _ _ Hr) as (-> & _).
  unfold Client.stopRecording. by rewrite (Hfollow result).
Qed.

Lemma no_submission_without_a_final_answer_witness :
  recorded staff voiceBody ClaudeVoiceService.CallFails None = None.
Proof.
  apply no_submission_without_a_final_answer.
  intros result Hr. by vm_compute in Hr.
Defined.

(** ** The text helpers of the voice service *)

Lemma elem_of_rev {A} (x : A) (l : list A) : x ∈ rev l ↔ x ∈ l.
Proof. rewrite !list_elem_of_In. symmetry. apply in_rev. Qed.

Lemma chars_string_of_list (l : list ascii) : chars (String.string_of_list_ascii l) = l.
Proof. apply String.list_ascii_of_string_of_list_ascii. Qed.

Lemma includes_char s c : includes s (String c EmptyString) = true ↔ c ∈ chars s.
Proof.
  unfold includes, chars. cbn [String.list_ascii_of_string].
  induction (String.list_ascii_of_string s) as [|x l IH]; cbn [includes_list isPrefix].
  - rewrite elem_of_nil. cbn. split; [discriminate | done].
  - rewrite orb_true_iff, IH, elem_of_cons, andb_true_r, bool_decide_eq_true. tauto.
Qed.

Lemma trimStart_elem c l : c ∈ trimStart l → c ∈ l.
Proof.
  induction l as [|x l IH]; cbn [trimStart]; [done |].
  destruct (is_ws x); [|done]. intros ?. apply elem_of_cons. auto.
Qed.

Lemma trimStart_keeps c l : c ∈ l → is_ws c = false → c ∈ trimStart l.
Proof.
  intros Hin Hc. induction l as [|x l IH]; cbn [trimStart]; [done |].
  destruct (is_ws x) eqn:Hx; [|done].
  apply elem_of_cons in Hin as [-> | Hin]; [congruence | by apply IH].
Qed.

Lemma chars_trim s : chars (trim s) = rev (trimStart (rev (trimStart (chars s)))).
Proof. unfold trim. apply chars_string_of_list. Qed.

Lemma trim_elem c s : c ∈ chars (trim s) → c ∈ chars s.
Proof.
  rewrite chars_trim, elem_of_rev. intros H%trimStart_elem.
  rewrite elem_of_rev in H. by apply trimStart_elem.
Qed.

Lemma trim_keeps c s : c ∈ chars s → is_ws c = false → c ∈ chars (trim s).
Proof.
  intros Hin Hc. rewrite chars_trim, elem_of_rev.
  apply trimStart_keeps; [|done]. apply elem_of_rev. by apply trimStart_keeps.
Qed.

Lemma runs_elem c r cur l :
  r ∈ ClaudeVoiceService.runs cur l → c ∈ r → c ∈ cur ∨ c ∈ l.
Proof.
  revert cur. induction l as [|x l IH]; intros cur; cbn [ClaudeVoiceService.runs].
  - rewrite elem_of_cons, elem_of_nil. intros [-> | []]. rewrite elem_of_rev. auto.
  - destruct (bool_decide (x = "."%char) || bool_decide (x = "!"%char)).
    + rewrite elem_of_cons. intros [-> | Hr] Hc.
      * rewrite elem_of_rev in Hc. auto.
      * destruct (IH _ Hr Hc) as [[]%elem_of_nil | ?]. right. apply elem_of_cons. auto.
    + intros Hr Hc. destruct (IH _ Hr Hc) as [Hin | ?].
      * apply elem_of_cons in Hin as [-> | ?]; [right; apply elem_of_cons|]; auto.
      * right. apply elem_of_cons. auto.
Qed.

Lemma runs_no_stop r cur l :
  r ∈ ClaudeVoiceService.runs cur l →
  "."%char ∉ cur → "!"%char ∉ cur → ("."%char ∉ r) ∧ ("!"%char ∉ r).
Proof.
  revert cur. induction l as [|x l IH]; intros cur; cbn [ClaudeVoiceService.runs].
  - rewrite elem_of_cons, elem_of_nil. intros [-> | []]. by rewrite !elem_of_rev.
  - destruct (bool_decide_reflect (x = "."%char)) as [|Hdot]; cbn [orb];
      [|destruct (bool_decide_reflect (x = "!"%char)) as [|Hbang]].
    + rewrite elem_of_cons. intros [-> | Hr] ??; [by rewrite !elem_of_rev |].
      apply (IH _ Hr); apply not_elem_of_nil.
    + rewrite elem_of_cons. intros [-> | Hr] ??; [by rewrite !elem_of_rev |].
      apply (IH _ Hr); apply not_elem_of_nil.
    + intros Hr ??. apply (IH _ Hr); rewrite elem_of_cons;
        (intros [Heq | ?]; [by symmetry in Heq | done]).
Qed.

Lemma runs_cover c cur l :
  c ∈ cur ∨ c ∈ l → c ≠ "."%char → c ≠ "!"%char →
  ∃ r, r ∈ ClaudeVoiceService.runs cur l ∧ c ∈ r.
Proof.
  intros Hin Hdot Hbang. revert cur Hin.
  induction l as [|x l IH]; intros cur Hin; cbn [ClaudeVoiceService.runs].
  - destruct Hin as [Hin | []%elem_of_nil]. exists (rev cur).
    rewrite elem_of_cons, elem_of_rev. auto.
  - destruct (bool_decide_reflect (x = "."%char)) as [->|Hx1]; cbn [orb];
      [|destruct (bool_decide_reflect (x = "!"%char)) as [->|Hx2]].
    + destruct Hin as [Hin | Hin%elem_of_cons].
      * exists (rev cur). rewrite elem_of_cons, elem_of_rev. auto.
      * destruct Hin as [-> | Hin]; [done |].
        destruct (IH [] (or_intror Hin)) as (r & ? & ?). exists r.
        rewrite elem_of_cons. auto.
    + destruct Hin as [Hin | Hin%elem_of_cons].
      * exists (rev cur). rewrite elem_of_cons, elem_of_rev. auto.
      * destruct Hin as [-> | Hin]; [done |].
        destruct (IH [] (or_intror Hin)) as (r & ? & ?). exists r.
        rewrite elem_of_cons. auto.
    + apply IH. rewrite elem_of_cons.
      destruct Hin as [Hin | Hin%elem_of_cons]; [auto | destruct Hin; auto].
Qed.

Lemma questionMatches_elem q s :
  q ∈ ClaudeVoiceService.questionMatches s →
  "?"%char ∈ chars q ∧ ("."%char ∉ chars q) ∧ ("!"%char ∉ chars q).
Proof.
  unfold ClaudeVoiceService.questionMatches.
  intros (r & -> & [Hq Hr]%list_elem_of_filter)%list_elem_of_fmap.
  rewrite chars_string_of_list. split; [done |].
  apply (runs_no_stop _ _ _ Hr); apply not_elem_of_nil.
Qed.

Lemma questionMatches_nonempty s :
  ClaudeVoiceService.questionMatches s ≠ [] ↔ "?"%char ∈ chars s.
Proof.
  unfold ClaudeVoiceService.questionMatches. split.
  - intros Hne.
    destruct (filter _ _) as [|r rest] eqn:Hfilter; [done |].
    assert (r ∈ filter (λ r, "?"%char ∈ r)
                  (ClaudeVoiceService.runs [] (String.list_ascii_of_string s)))
      as [Hq Hr]%list_elem_of_filter by (rewrite Hfilter; apply elem_of_cons; auto).
    by destruct (runs_elem _ _ _ _ Hr Hq) as [[]%elem_of_nil | ?].
  - intros Hin.
    destruct (runs_cover "?"%char [] (chars s)) as (r & Hr & Hq); [auto | done | done |].
    assert (r ∈ filter (λ r, "?"%char ∈ r)
                  (ClaudeVoiceService.runs [] (String.list_ascii_of_string s))) as Hfilter
      by (by apply list_elem_of_filter).
    intros Hnil%fmap_nil_inv. rewrite Hnil in Hfilter. by apply elem_of_nil in Hfilter.
Qed.

(** X25: the follow-up questions [extractStructuredData] reports are cut
    out of Claude's text between full stops and exclamation marks: each of
    them holds a question mark and neither of the two; there is one exactly
    when the text holds a question mark, and then a follow-up is asked for. *)
Theorem follow_up_questions_are_questions response original :
  let a := ClaudeVoiceService.extractStructuredData response original in
  (∀ q, q ∈ ClaudeVoiceService.a_followUpQuestions a →
        "?"%char ∈ chars q ∧ ("."%char ∉ chars q) ∧ ("!"%char ∉ chars q))
  ∧ (ClaudeVoiceService.a_followUpQuestions a ≠ [] ↔ "?"%char ∈ chars response)
  ∧ ("?"%char ∈ chars response → ClaudeVoiceService.needsMoreInfo a = true).
Proof.
  cbn zeta. unfold ClaudeVoiceService.extractStructuredData.
  destruct (if includes (toLowerCase response) "consultation" || _ || _ then _ else _)
    as [[t est] conf].
  cbn [ClaudeVoiceService.a_followUpQuestions ClaudeVoiceService.needsMoreInfo].
  pose proof (includes_char response "?"%char) as Hq.
  change (String "?" EmptyString) with "?"%string in Hq.
  destruct (includes response "?") eqn:Hinc; cbn [orb].
  - split_and!.
    + intros q (q0 & -> & (Hin & Hdot & Hbang)%questionMatches_elem)%list_elem_of_fmap.
      split_and!.
      * by apply trim_keeps.
      * by intros ?%trim_elem.
      * by intros ?%trim_elem.
    + split; [intros _; by apply Hq |]. intros Hin Hnil%fmap_nil_inv.
      by apply questionMatches_nonempty in Hin.
    + done.
  - assert ("?"%char ∉ chars response) as Hno by (intros ?%Hq; done).
    assert (ClaudeVoiceService.questionMatches response = []) as Hnone.
    { destruct (ClaudeVoiceService.questionMatches response) eqn:Hm; [done |].
      exfalso. apply Hno, questionMatches_nonempty. by rewrite Hm. }
    rewrite Hnone. split_and!.
    + intros q. destruct (_ || _ || _); cbn; by intros ?%elem_of_nil.
    + split; [|done]. by destruct (_ || _ || _).
    + done.
Qed.

Lemma rev_reverse {A} (l : list A) : rev l = reverse l.
Proof. induction l as [|x l IH]; [done |]. cbn [rev]. by rewrite reverse_cons, IH. Qed.

Lemma trimStart_split l :
  ∃ w, l = w ++ trimStart l ∧ Forall (λ c, is_ws c = true) w.
Proof.
  induction l as [|x l (w & Hl & Hw)]; [by exists [] |]. cbn [trimStart].
  destruct (is_ws x) eqn:Hx; [|by exists []].
  exists (x :: w). split; [by rewrite Hl at 1 | by constructor].
Qed.

Lemma trimStart_head l c : head (trimStart l) = Some c → is_ws c = false.
Proof.
  induction l as [|x l IH]; cbn [trimStart]; [done |].
  destruct (is_ws x) eqn:Hx; [done |]. by intros [= <-].
Qed.

Lemma trimStart_fixed l : (∀ c, head l = Some c → is_ws c = false) → trimStart l = l.
Proof. destruct l as [|x l]; [done |]. intros H. cbn [trimStart]. by rewrite (H x). Qed.

(** [trim] on the characters: what is cut off at the end is white space. *)
Lemma trimEnd_split l :
  ∃ w, l = rev (trimStart (rev l)) ++ w ∧ Forall (λ c, is_ws c = true) w.
Proof.
  destruct (trimStart_split (rev l)) as (w & Hl & Hw). exists (rev w). split.
  - rewrite <- rev_app_distr, <- Hl. by rewrite rev_involutive.
  - rewrite rev_reverse. by apply Forall_reverse.
Qed.

Lemma singleSpaced_collapse b l : singleSpaced b (ClaudeVoiceService.collapse b l) = true.
Proof.
  revert b. induction l as [|x l IH]; intros b; cbn [ClaudeVoiceService.collapse]; [done |].
  destruct (is_ws x) eqn:Hx.
  - destruct b; [apply IH |]. cbn [singleSpaced].
    change (is_ws " ") with true. cbn iota. by rewrite bool_decide_eq_true_2, IH.
  - cbn [singleSpaced]. by rewrite Hx.
Qed.

Lemma singleSpaced_trimStart b l :
  singleSpaced b l = true → singleSpaced false (trimStart l) = true.
Proof.
  revert b. induction l as [|x l IH]; intros b; cbn [singleSpaced trimStart]; [done |].
  destruct (is_ws x) eqn:Hx.
  - intros (_ & H)%andb_true_iff. by apply (IH true).
  - cbn [singleSpaced]. by rewrite Hx.
Qed.

Lemma singleSpaced_prefix b p w : singleSpaced b (p ++ w) = true → singleSpaced b p = true.
Proof.
  revert b. induction p as [|x p IH]; intros b; cbn [app singleSpaced]; [done |].
  destruct (is_ws x); [|apply IH].
  intros ([-> ->]%andb_true_iff & H)%andb_true_iff. cbn [andb]. by apply IH.
Qed.

Lemma singleSpaced_ws b l c : singleSpaced b l = true → c ∈ l → is_ws c = true → c = " "%char.
Proof.
  revert b. induction l as [|x l IH]; intros b; cbn [singleSpaced]; [by intros _ ?%elem_of_nil |].
  intros Hl [-> | Hin]%elem_of_cons Hc.
  - rewrite Hc in Hl. by apply andb_true_iff in Hl as ([?%bool_decide_eq_true _]%andb_true_iff & _).
  - destruct (is_ws x); [|by apply (IH false)].
    apply andb_true_iff in Hl as [_ Hl]. by apply (IH true).
Qed.

Lemma singleSpaced_adjacent b l1 x y l2 :
  singleSpaced b (l1 ++ x :: y :: l2) = true → is_ws x = true → is_ws y = false.
Proof.
  revert b. induction l1 as [|z l1 IH]; intros b; cbn [app singleSpaced].
  - intros Hl Hx. rewrite Hx in Hl. apply andb_true_iff in Hl as [_ Hl].
    destruct (is_ws y); [|done]. by rewrite andb_false_r in Hl.
  - destruct (is_ws z); [|apply IH]. intros [_ Hl]%andb_true_iff. by apply (IH true).
Qed.

Lemma collapse_fixed b l : singleSpaced b l = true → ClaudeVoiceService.collapse b l = l.
Proof.
  revert b. induction l as [|x l IH]; intros b;
    cbn [singleSpaced ClaudeVoiceService.collapse]; [done |].
  destruct (is_ws x).
  - intros ([->%bool_decide_eq_true ->%negb_true_iff]%andb_true_iff & H)%andb_true_iff.
    by rewrite IH.
  - intros H. by rewrite IH.
Qed.

Lemma chars_makeConversational text :
  chars (ClaudeVoiceService.makeConversational text)
  = rev (trimStart (rev (trimStart (ClaudeVoiceService.collapse false (chars text))))).
Proof.
  unfold ClaudeVoiceService.makeConversational. by rewrite chars_trim, chars_string_of_list.
Qed.

Lemma spoken_facts text :
  let out := chars (ClaudeVoiceService.makeConversational text) in
  singleSpaced false out = true
  ∧ (∀ c, head out = Some c → is_ws c = false)
  ∧ (∀ c, last out = Some c → is_ws c = false).
Proof.
  cbn zeta. rewrite chars_makeConversational.
  set (t := trimStart (ClaudeVoiceService.collapse false (chars text))).
  assert (singleSpaced false t = true) as Ht
    by (eapply singleSpaced_trimStart, singleSpaced_collapse).
  destruct (trimEnd_split t) as (w & Hsplit & _).
  split_and!.
  - apply (singleSpaced_prefix _ _ w). by rewrite <- Hsplit.
  - intros c Hc. apply (trimStart_head (ClaudeVoiceService.collapse false (chars text))).
    fold t. rewrite Hsplit. by destruct (rev (trimStart (rev t))).
  - intros c. rewrite rev_reverse, last_reverse. apply trimStart_head.
Qed.

(** X26: what [makeConversational] hands to the speech engine is spaced for
    speech: it neither starts nor ends with white space, its only white
    space is the space character (line breaks and tabs are gone), never two
    in a row; and the other characters are those of the text. *)
Theorem makeConversational_is_spaced_for_speech text :
  let out := chars (ClaudeVoiceService.makeConversational text) in
  (∀ c, head out = Some c → is_ws c = false)
  ∧ (∀ c, last out = Some c → is_ws c = false)
  ∧ (∀ c, c ∈ out → is_ws c = true → c = " "%char)
  ∧ (∀ l1 x y l2, out = l1 ++ x :: y :: l2 → is_ws x = true → is_ws y = false)
  ∧ (∀ c, is_ws c = false → c ∈ out ↔ c ∈ chars text).
Proof.
  destruct (spoken_facts text) as (Hspaced & Hhead & Hlast). cbn zeta.
  split_and!; try done.
  - intros c. by apply (singleSpaced_ws false).
  - intros l1 x y l2 Hout. rewrite Hout in Hspaced.
    apply (singleSpaced_adjacent _ _ _ _ _ Hspaced).
  - intros c Hc. rewrite chars_makeConversational, elem_of_rev.
    assert (∀ b l, c ∈ ClaudeVoiceService.collapse b l ↔ c ∈ l) as Hcollapse.
    { intros b l. revert b. induction l as [|x l IH]; intros b;
        cbn [ClaudeVoiceService.collapse]; [done |].
      destruct (is_ws x) eqn:Hx; [destruct b |]; rewrite ?elem_of_cons, IH;
        [split; [auto | intros [-> | ?]; [congruence | done]]
        |split; (intros [-> | ?]; [|auto]); [by vm_compute in Hc | congruence]
        |done]. }
    split.
    + intros H%trimStart_elem. rewrite elem_of_rev in H.
      apply trimStart_elem in H. by apply Hcollapse in H.
    + intros H. apply trimStart_keeps; [|done]. rewrite elem_of_rev.
      apply trimStart_keeps; [|done]. by apply Hcollapse.
Qed.

Lemma makeConversational_chars text :
  ClaudeVoiceService.makeConversational text
  = String.string_of_list_ascii
      (rev (trimStart (rev (trimStart (ClaudeVoiceService.collapse false (chars text)))))).
Proof.
  unfold ClaudeVoiceService.makeConversational, trim.
  by rewrite String.list_ascii_of_string_of_list_ascii.
Qed.

(** X27: [makeConversational] changes nothing in a text it has already
    gone over. *)
Theorem makeConversational_idempotent text :
  ClaudeVoiceService.makeConversational (ClaudeVoiceService.makeConversational text)
  = ClaudeVoiceService.makeConversational text.
Proof.
  destruct (spoken_facts text) as (Hspaced & Hhead & Hlast). cbn zeta in *.
  rewrite (makeConversational_chars (ClaudeVoiceService.makeConversational text)).
  set (out := chars (ClaudeVoiceService.makeConversational text)) in *.
  rewrite (collapse_fixed _ _ Hspaced), (trimStart_fixed out Hhead).
  rewrite trimStart_fixed.
  - rewrite rev_involutive. apply String.string_of_list_ascii_of_string.
  - intros c. rewrite rev_reverse, head_reverse. apply Hlast.
Qed.

(** ** The window of [validateSaleTimestamp] *)

(** X28: [validateSaleTimestamp] accepts a timestamp exactly when it is a
    valid date, not in the future and at most seven days old; the
    [tolerance] argument, two hours by default, has no say. *)
Theorem validateSaleTimestamp_window saleTime tolerance now :
  AIService.validateSaleTimestamp saleTime tolerance now = true
  ↔ ∃ t, saleTime = Some t ∧ (now - AIService.maxAge ≤ t ≤ now)%Z.
Proof.
  unfold AIService.validateSaleTimestamp. destruct saleTime as [t|].
  - cbn zeta. rewrite andb_true_iff, !bool_decide_eq_true. split.
    + intros [Hage Hpast]. exists t. split; [done |]. lia.
    + intros (? & [= <-] & Hwindow). lia.
  - split; [done | by intros (? & [=] & _)].
Qed.

(** ** [OptimalClaudeService]: the message and the figures *)

Lemma lastN_app {A} (n : nat) (older recent : list A) :
  length recent = n → OptimalClaudeService.lastN n (older ++ recent) = recent.
Proof.
  intros <-. unfold OptimalClaudeService.lastN. rewrite length_app.
  replace (length older + length recent - length recent)%nat with (length older) by lia.
  apply drop_app_length.
Qed.

(** X29: the message [buildUserMessage] writes reads the history through
    its last four entries only, and not at all in a follow-up. *)
Theorem buildUserMessage_reads_last_four text older recent isFollowUp :
  length recent = 4%nat →
  OptimalClaudeService.buildUserMessage text (older ++ recent) isFollowUp
  = OptimalClaudeService.buildUserMessage text recent isFollowUp
  ∧ OptimalClaudeService.buildUserMessage text older true
    = OptimalClaudeService.buildUserMessage text recent true.
Proof.
  intros Hrecent. split; [|done]. unfold OptimalClaudeService.buildUserMessage.
  destruct isFollowUp; [done |].
  rewrite !bool_decide_eq_true_2 by (rewrite ?length_app; lia).
  rewrite lastN_app by done.
  by rewrite <- (lastN_app 4 [] recent Hrecent) at 1.
Qed.

Lemma buildUserMessage_reads_last_four_witness :
  OptimalClaudeService.buildUserMessage "I helped" oneHistory false
  = OptimalClaudeService.buildUserMessage "I helped" (drop 2 oneHistory) false.
Proof.
  apply (buildUserMessage_reads_last_four "I helped" (take 2 oneHistory) (drop 2 oneHistory)).
  reflexivity.
Defined.

Lemma figures_eq (t t' : string) (est est' conf conf' : Qc) :
  t = t' → est = est' → conf = conf' → (t, est, conf) = (t', est', conf').
Proof. by intros -> -> ->. Qed.

Ltac table_row :=
  first [ left; apply figures_eq; [reflexivity | qc_eq | qc_eq]
        | right; table_row ].

(** X30: [OptimalClaudeService.extractStructuredData] reports one of eight
    combinations: the keyword of Claude's text picks a base of 8, 12, 5 or
    2, the member's own words pick the confidence, 0.8 when they hold a
    digit or one of the words time, customer, product, help and 0.6
    otherwise, and the estimate is their product, which rounding to cents
    leaves as it is. *)
Theorem optimal_analysis_table response original :
  let a := OptimalClaudeService.extractStructuredData response original in
  analysisFigures a ∈ optimalTable
  ∧ (dec 8 10 ≤ ClaudeVoiceService.confidence a
     ↔ OptimalClaudeService.hasSpecifics original = true)
  ∧ ∃ base, (base, ClaudeVoiceService.a_assistanceType a)
            ∈ [(ofZ 8, "consultation"); (ofZ 12, "problem_solving");
               (ofZ 5, "assistance"); (ofZ 2, "recommendation")]
            ∧ ClaudeVoiceService.a_estimatedCredit a
              = base * ClaudeVoiceService.confidence a.
Proof.
  cbn zeta. unfold analysisFigures, OptimalClaudeService.extractStructuredData, optimalTable.
  destruct (includes (toLowerCase response) "consultation" || _ || _);
    [|destruct (includes (toLowerCase response) "problem" || _ || _);
      [|destruct (includes (toLowerCase response) "helped" || _ || _)]];
    cbn [ClaudeVoiceService.a_assistanceType ClaudeVoiceService.a_estimatedCredit
         ClaudeVoiceService.confidence];
    (destruct (OptimalClaudeService.hasSpecifics original);
     (split_and!;
      [rewrite !elem_of_cons; table_row
      |first [split; [done | intros _; by vm_compute]
             |split; [intros H; exfalso; apply Qcle_not_lt in H; apply H; by vm_compute
                     |done]]
      |eexists; split;
       [rewrite !elem_of_cons;
        first [by left | by right; left | by right; right; left | by right; right; right; left]
       |qc_eq]])).
Qed.
